(** * Lexmancer training-data tools: extraction, validation, diversity analysis

    A shallow embedding of [Tools/fix_training_data.py] and
    [Tools/analyze_training_diversity.py], and the properties their
    specification states about them.

    Conventions of the embedding:
    - a text is the sequence of its characters, [list ascii]; the scanners
      inspect the two brace characters only;
    - a Python exception is a constructor of [Py.exn], and code that can raise
      returns a [Py.result];
    - [json.loads] is library code.  It is a parameter of the extractors: a
      function from a text to the parsed object, to [json.JSONDecodeError], or
      to another exception it raises.  Every text handed to it opens with a
      brace, so what it parses is a dict;
    - the validator reads parsed JSON as Python does ([in], subscripts, [len],
      truth values, with their [TypeError]s); the analyzer reads records that
      have the fields it subscripts;
    - a [Counter] or dict is the list of its items in insertion order, counts
      are natural numbers;
    - Python's floats are read as real numbers, [math.log2 x] as
      [ln x / ln 2]; every [/] goes through [true_div], which raises
      [ZeroDivisionError] on a zero divisor.  What is stated of float results
      is what rounding keeps: the formula computed, signs, values that are
      exact (0, a quotient of equal numbers), and comparisons that follow by
      monotonicity; bounds and identities of exact arithmetic only are not
      stated. *)

From Stdlib Require Import List String Ascii ZArith Bool Arith Lia Floats.
From Stdlib Require Import Reals Lra Sorting.Sorted Sorting.Permutation.
Import ListNotations.

Set Warnings "-register-all".

Local Open Scope Z_scope.

(** ** Python exceptions and results *)

Module Py.

Inductive exn : Set :=
| TypeError
| KeyError
| ValueError
| ZeroDivisionError
| RecursionError.

Inductive result (A : Type) : Type :=
| Ok (a : A)
| Raise (e : exn).

Arguments Ok {A} a.
Arguments Raise {A} e.

Definition bind {A B : Type} (m : result A) (k : A -> result B) : result B :=
  match m with
  | Ok a => k a
  | Raise e => Raise e
  end.

End Py.

Import Py.

Notation "x <- m ;; k" := (Py.bind m (fun x => k))
  (at level 61, m at next level, right associativity).

(** ** JSON values, with the Python operations the tools apply to them *)

Module Json.

(** What [json.loads] builds: [None], [bool], [int], [float], [str], [list]
    and [dict].  A dict is kept as its items, in insertion order. *)
Inductive json : Type :=
| JNull
| JBool (b : bool)
| JInt (n : Z)
| JFloat (f : float)
| JStr (s : string)
| JArr (items : list json)
| JObj (items : list (string * json)).

Definition dict : Type := list (string * json).

(** What a call of [json.loads] comes to: the parsed object, a
    [json.JSONDecodeError], or another exception.  The decoder has two of
    those: [ValueError] for an integer literal longer than the digit limit of
    [int] (4300 digits), and [RecursionError] for nesting beyond the recursion
    limit. *)
Inductive loaded : Type :=
| Parsed (obj : dict)
| JSONDecodeError
| OtherError (e : exn).

(** [key in d] for a dict [d]. *)
Definition dict_contains (key : string) (d : dict) : bool :=
  existsb (fun kv => String.eqb key (fst kv)) d.

(** [d.get(key)] for a dict [d]. *)
Definition dict_get (key : string) (d : dict) : option json :=
  match find (fun kv => String.eqb key (fst kv)) d with
  | Some kv => Some (snd kv)
  | None => None
  end.

(** [sub in s] for two strings. *)
Fixpoint str_contains (sub s : string) : bool :=
  if String.prefix sub s then true
  else match s with
       | EmptyString => false
       | String _ s' => str_contains sub s'
       end.

Definition is_str (key : string) (v : json) : bool :=
  match v with
  | JStr s => String.eqb key s
  | _ => false
  end.

(** [key in v] for a string [key]: membership of a key in a dict, of an
    element in a list, of a substring in a string; a [TypeError] on a value
    that is not a container. *)
Definition py_in (key : string) (v : json) : result bool :=
  match v with
  | JObj d => Ok (dict_contains key d)
  | JArr l => Ok (existsb (is_str key) l)
  | JStr s => Ok (str_contains key s)
  | _ => Raise TypeError
  end.

(** [v[key]] for a string [key]: only a dict can be subscripted by a string. *)
Definition py_getitem (v : json) (key : string) : result json :=
  match v with
  | JObj d =>
      match dict_get key d with
      | Some x => Ok x
      | None => Raise KeyError
      end
  | _ => Raise TypeError
  end.

(** [len(v)]. *)
Definition py_len (v : json) : result nat :=
  match v with
  | JStr s => Ok (String.length s)
  | JArr l => Ok (List.length l)
  | JObj d => Ok (List.length d)
  | _ => Raise TypeError
  end.

(** [bool(v)], the truth value [not v] negates. *)
Definition py_bool (v : json) : bool :=
  match v with
  | JNull => false
  | JBool b => b
  | JInt n => negb (n =? 0)
  | JFloat f => negb (PrimFloat.eqb f 0%float)
  | JStr s => negb (String.eqb s "")
  | JArr l => match l with [] => false | _ => true end
  | JObj d => match d with [] => false | _ => true end
  end.

End Json.

Import Json.

(** ** fix_training_data.py *)

Module FixTrainingData.

Definition lbrace : ascii := "{"%char.
Definition rbrace : ascii := "}"%char.

(** The three loop variables of [extract_json_objects]. *)
Record scan : Type := mkScan {
  depth : Z;
  current_obj : list ascii;
  in_object : bool
}.

Definition scan_init : scan := mkScan 0 [] false.

(** [if char == '{': ...] *)
Definition on_open (st : scan) (char : ascii) : scan :=
  if Ascii.eqb char lbrace then
    let st1 := if depth st =? 0 then mkScan (depth st) [] true else st in
    mkScan (depth st1 + 1) (current_obj st1) (in_object st1)
  else st.

(** [if in_object: current_obj += char] *)
Definition on_char (st : scan) (char : ascii) : scan :=
  if in_object st then mkScan (depth st) (current_obj st ++ [char]) (in_object st)
  else st.

(** [if char == '}': ...]: the new state and, when the counter is back at
    zero inside an object, the candidate span handed to [json.loads]. *)
Definition on_close (st : scan) (char : ascii) : scan * option (list ascii) :=
  if Ascii.eqb char rbrace then
    let d := depth st - 1 in
    if (d =? 0) && in_object st
    then (mkScan d (current_obj st) false, Some (current_obj st))
    else (mkScan d (current_obj st) (in_object st), None)
  else (st, None).

(** One iteration of [for char in text], up to the [try] block. *)
Definition scan_char (st : scan) (char : ascii) : scan * option (list ascii) :=
  on_close (on_char (on_open st char) char) char.

Section Extractor.

Variable json_loads : list ascii -> loaded.

(** The [try] block: parse the candidate, keep it when it has both keys.
    [except json.JSONDecodeError] catches that exception and the candidate is
    skipped; another exception of [json.loads] is not caught. *)
Definition try_parse (objects : list dict) (candidate : list ascii)
  : result (list dict) :=
  match json_loads candidate with
  | Parsed obj =>
      if dict_contains "name" obj && dict_contains "ability" obj
      then Ok (objects ++ [obj])
      else Ok objects
  | JSONDecodeError => Ok objects
  | OtherError e => Raise e
  end.

Fixpoint scan_loop (st : scan) (objects : list dict) (text : list ascii)
  : result (list dict) :=
  match text with
  | [] => Ok objects
  | char :: rest =>
      let (st', emitted) := scan_char st char in
      match emitted with
      | Some candidate =>
          objects' <- try_parse objects candidate ;;
          scan_loop st' objects' rest
      | None => scan_loop st' objects rest
      end
  end.

Definition extract_json_objects (text : list ascii) : result (list dict) :=
  scan_loop scan_init [] text.

End Extractor.

(** Observers of the scan: the state reached after a text, and the candidate
    spans emitted on the way, in order. *)
Fixpoint scan_state (st : scan) (text : list ascii) : scan :=
  match text with
  | [] => st
  | char :: rest => scan_state (fst (scan_char st char)) rest
  end.

Fixpoint spans_from (st : scan) (text : list ascii) : list (list ascii) :=
  match text with
  | [] => []
  | char :: rest =>
      let (st', emitted) := scan_char st char in
      match emitted with
      | Some candidate => candidate :: spans_from st' rest
      | None => spans_from st' rest
      end
  end.

Definition candidate_spans (text : list ascii) : list (list ascii) :=
  spans_from scan_init text.

(** *** [validate_ability] and the validation loop of [main] *)

Definition required_fields : list string :=
  ["name"; "description"; "color"; "ability"]%string.

(** [for field in required_fields: if field not in ability_obj: return ...] *)
Fixpoint check_required (fields : list string) (ability_obj : dict)
  : option string :=
  match fields with
  | [] => None
  | field :: rest =>
      if negb (dict_contains field ability_obj)
      then Some (String.append "Missing field: " field)
      else check_required rest ability_obj
  end.

Definition validate_ability (ability_obj : dict) : result (bool * string) :=
  match check_required required_fields ability_obj with
  | Some msg => Ok (false, msg)
  | None =>
      ability <- py_getitem (JObj ability_obj) "ability" ;;
      has_primitives <- py_in "primitives" ability ;;
      bad_primitives <-
        (if negb has_primitives then Ok true
         else prims <- py_getitem ability "primitives" ;;
              len <- py_len prims ;;
              Ok (negb (len =? 2)%nat)) ;;
      if bad_primitives
      then Ok (false, "Invalid primitives (must have exactly 2)"%string)
      else
        has_effects <- py_in "effects" ability ;;
        bad_effects <-
          (if negb has_effects then Ok true
           else effects <- py_getitem ability "effects" ;;
                Ok (negb (py_bool effects))) ;;
        if bad_effects
        then Ok (false, "Missing effects"%string)
        else
          has_cooldown <- py_in "cooldown" ability ;;
          if negb has_cooldown
          then Ok (false, "Missing cooldown"%string)
          else Ok (true, "OK"%string)
  end.

(** [for obj in objects: is_valid, msg = validate_ability(obj) ...] of
    [main]: the valid objects, in order, and the count of the others. *)
Fixpoint validate_loop (objects valid_objects : list dict) (invalid_count : nat)
  : result (list dict * nat) :=
  match objects with
  | [] => Ok (valid_objects, invalid_count)
  | obj :: rest =>
      verdict <- validate_ability obj ;;
      if fst verdict
      then validate_loop rest (valid_objects ++ [obj]) invalid_count
      else validate_loop rest valid_objects (invalid_count + 1)%nat
  end.

Definition validate_objects (objects : list dict) : result (list dict * nat) :=
  validate_loop objects [] 0%nat.

End FixTrainingData.

(** ** analyze_training_diversity.py *)

Module AnalyzeTrainingDiversity.

Local Open Scope R_scope.

(** *** The records the analyzer reads

    [entry['ability']['primitives']], [entry['ability']['effects']] and
    [effect['script']] are subscripted, so they are fields; [action], [args]
    and [on_hit] are read with [.get] and a default, so [action] is optional
    and an absent [args] or [on_hit] is the empty one. *)

Inductive value : Type :=
| VStr (s : string)
| VInt (n : Z).

Inductive ScriptNode : Type :=
| Script (action : option string) (args : list (string * value))
         (on_hit : list ScriptNode).

Definition node_action (script : ScriptNode) : option string :=
  match script with Script action _ _ => action end.

Definition node_args (script : ScriptNode) : list (string * value) :=
  match script with Script _ args _ => args end.

Record Effect : Type := mkEffect { script : list ScriptNode }.

Record Ability : Type := mkAbility {
  primitives : list string;
  effects : list Effect
}.

Record Entry : Type := mkEntry {
  name : string;
  ability : Ability
}.

(** [script.get('action', default)] *)
Definition get_action (script : ScriptNode) (default : string) : string :=
  match node_action script with
  | Some action => action
  | None => default
  end.

(** [script.get('action') == tag] *)
Definition action_is (script : ScriptNode) (tag : string) : bool :=
  match node_action script with
  | Some action => String.eqb action tag
  | None => false
  end.

(** [args.get(key, default)] *)
Definition args_get (key : string) (default : value)
  (args : list (string * value)) : value :=
  match find (fun kv => String.eqb key (fst kv)) args with
  | Some kv => snd kv
  | None => default
  end.

(** *** Equality tests of the keys that are counted *)

Definition value_eqb (a b : value) : bool :=
  match a, b with
  | VStr s, VStr t => String.eqb s t
  | VInt n, VInt m => Z.eqb n m
  | _, _ => false
  end.

Fixpoint tuple_eqb (a b : list string) : bool :=
  match a, b with
  | [], [] => true
  | x :: a', y :: b' => String.eqb x y && tuple_eqb a' b'
  | _, _ => false
  end.

Definition pair_eqb (a b : value * value) : bool :=
  value_eqb (fst a) (fst b) && value_eqb (snd a) (snd b).

(** *** [collections.Counter], as its items in insertion order *)

Section Counters.

Context {K : Type} (eqb : K -> K -> bool).

Definition Counter : Type := list (K * nat).

(** [counts[key] += 1] *)
Fixpoint incr (key : K) (counts : Counter) : Counter :=
  match counts with
  | [] => [(key, 1%nat)]
  | (k, c) :: rest =>
      if eqb key k then (k, S c) :: rest else (k, c) :: incr key rest
  end.

(** [Counter(items)] *)
Definition count_all (items : list K) : Counter :=
  fold_left (fun counts key => incr key counts) items [].

(** [set(items)], as the distinct items in order of first occurrence. *)
Fixpoint distinct (items : list K) : list K :=
  match items with
  | [] => []
  | x :: rest => x :: filter (fun y => negb (eqb x y)) (distinct rest)
  end.

End Counters.

Arguments Counter K : clear implicits.

(** [counts.values()] *)
Definition values {K : Type} (counts : Counter K) : list nat := map snd counts.

(** [sorted(prims)] on strings: insertion into an ascending list. *)
Fixpoint insert_sorted (x : string) (l : list string) : list string :=
  match l with
  | [] => [x]
  | y :: rest => if String.leb x y then x :: l else y :: insert_sorted x rest
  end.

Definition sorted (l : list string) : list string :=
  fold_right insert_sorted [] l.

(** *** Arithmetic *)

(** [math.log2] *)
Definition log2 (x : R) : R := ln x / ln 2.

(** [a / b]: a [ZeroDivisionError] when the divisor is zero. *)
Definition true_div (a b : R) : result R :=
  if Req_dec_T b 0 then Raise ZeroDivisionError else Ok (a / b).

(** [min(l)] and [max(l)]: a [ValueError] on an empty sequence. *)
Definition py_min (l : list nat) : result nat :=
  match l with
  | [] => Raise ValueError
  | x :: rest => Ok (fold_left Nat.min rest x)
  end.

Definition py_max (l : list nat) : result nat :=
  match l with
  | [] => Raise ValueError
  | x :: rest => Ok (fold_left Nat.max rest x)
  end.

Definition nonempty {A : Type} (l : list A) : bool :=
  match l with [] => false | _ => true end.

(** *** [DiversityAnalyzer] *)

Record DiversityAnalyzer : Type := mkAnalyzer {
  data : list Entry;
  n : nat
}.

(** [__init__] *)
Definition init (data : list Entry) : DiversityAnalyzer :=
  mkAnalyzer data (List.length data).

(** One turn of [for count in counts.values()] in [shannon_entropy]. *)
Definition entropy_step (total : nat) (acc : result R) (count : nat) : result R :=
  entropy <- acc ;;
  if (0 <? count)%nat
  then p <- true_div (INR count) (INR total) ;;
       Ok (entropy - p * log2 p)
  else Ok entropy.

Definition shannon_entropy {K : Type} (counts : Counter K) : result R :=
  let total := list_sum (values counts) in
  if (total =? 0)%nat then Ok 0
  else fold_left (entropy_step total) (values counts) (Ok 0).

(** *** [analyze_element_combinations] *)

Record ElementAnalysis : Type := mkElementAnalysis {
  unique_combinations : nat;
  max_possible : nat;
  coverage_percent : R;
  distribution : Counter (list string);
  entropy : R;
  max_entropy : R;
  evenness_percent : R;
  min_samples : nat;
  max_samples : nat;
  avg_samples : R
}.

(** [for entry in self.data: combos[tuple(sorted(...))] += 1] *)
Definition element_combos (data : list Entry) : Counter (list string) :=
  fold_left
    (fun combos entry =>
       incr tuple_eqb (sorted (primitives (ability entry))) combos)
    data [].

Definition analyze_element_combinations (self : DiversityAnalyzer)
  : result ElementAnalysis :=
  let combos := element_combos (data self) in
  let max_possible := 28%nat in
  q <- true_div (INR (List.length combos)) (INR max_possible) ;;
  let coverage := q * 100 in
  entropy <- shannon_entropy combos ;;
  let max_entropy :=
    if nonempty combos then log2 (INR (List.length combos)) else 0 in
  evenness <-
    (if Rlt_dec 0 max_entropy
     then r <- true_div entropy max_entropy ;; Ok (r * 100)
     else Ok 0) ;;
  min_samples <- (if nonempty combos then py_min (values combos) else Ok 0%nat) ;;
  max_samples <- (if nonempty combos then py_max (values combos) else Ok 0%nat) ;;
  avg_samples <-
    (if nonempty combos
     then true_div (INR (list_sum (values combos))) (INR (List.length combos))
     else Ok 0) ;;
  Ok (mkElementAnalysis (List.length combos) max_possible coverage combos
        entropy max_entropy evenness min_samples max_samples avg_samples).

(** *** [analyze_actions] *)

Record ActionAnalysis : Type := mkActionAnalysis {
  action_distribution : Counter string;
  unique_actions : nat;
  action_entropy : R;
  unique_sequences : nat;
  sequence_entropy : R;
  sequence_diversity_percent : R
}.

(** The body of [for script in effect['script']]. *)
Definition tally_action (acc : Counter string * list string)
  (script : ScriptNode) : Counter string * list string :=
  let action := get_action script "unknown" in
  (incr String.eqb action (fst acc), snd acc ++ [action]).

(** The body of [for entry in self.data]. *)
Definition tally_entry (acc : Counter string * list (list string))
  (entry : Entry) : Counter string * list (list string) :=
  let inner :=
    fold_left
      (fun st effect => fold_left tally_action (script effect) st)
      (effects (ability entry)) (fst acc, []) in
  (fst inner, snd acc ++ [snd inner]).

Definition analyze_actions (self : DiversityAnalyzer) : result ActionAnalysis :=
  let tallies := fold_left tally_entry (data self) ([], []) in
  let actions := fst tallies in
  let action_sequences := snd tallies in
  let unique_sequences := List.length (distinct tuple_eqb action_sequences) in
  sequence_entropy <- shannon_entropy (count_all tuple_eqb action_sequences) ;;
  entropy <- shannon_entropy actions ;;
  q <- true_div (INR unique_sequences) (INR (n self)) ;;
  Ok (mkActionAnalysis actions (List.length actions) entropy unique_sequences
        sequence_entropy (q * 100)).

(** *** [analyze_melee_attacks] *)

Record MeleeAnalysis : Type := mkMeleeAnalysis {
  shapes : Counter value;
  movements : Counter value;
  shape_movement_combos : Counter (value * value);
  shape_entropy : R;
  movement_entropy : R
}.

Definition melee_tallies : Type :=
  (Counter value * Counter value * Counter (value * value))%type.

(** The body of [for script in effect['script']]. *)
Definition tally_melee (acc : melee_tallies) (script : ScriptNode)
  : melee_tallies :=
  if action_is script "spawn_melee" then
    let args := node_args script in
    let shape := args_get "shape" (VStr "unknown") args in
    let movement := args_get "movement" (VStr "stationary") args in
    let '(shapes, movements, combos) := acc in
    (incr value_eqb shape shapes,
     incr value_eqb movement movements,
     incr pair_eqb (shape, movement) combos)
  else acc.

Definition melee_counters (data : list Entry) : melee_tallies :=
  fold_left
    (fun acc entry =>
       fold_left
         (fun acc effect => fold_left tally_melee (script effect) acc)
         (effects (ability entry)) acc)
    data ([], [], []).

Definition analyze_melee_attacks (self : DiversityAnalyzer)
  : result (option MeleeAnalysis) :=
  let '(shapes, movements, combos) := melee_counters (data self) in
  if negb (nonempty shapes) then Ok None
  else
    shape_entropy <- shannon_entropy shapes ;;
    movement_entropy <- shannon_entropy movements ;;
    Ok (Some (mkMeleeAnalysis shapes movements combos
                shape_entropy movement_entropy)).

(** *** [analyze_status_effects] *)

Record StatusAnalysis : Type := mkStatusAnalysis {
  status_distribution : Counter value;
  unique_statuses : nat;
  status_entropy : R
}.

(** The inner function [extract_statuses]; the counter it updates is passed
    through. *)
Fixpoint extract_statuses (script_item : ScriptNode) (statuses : Counter value)
  : Counter value :=
  match script_item with
  | Script action args on_hit =>
      let statuses :=
        if action_is script_item "apply_status"
        then incr value_eqb (args_get "status" (VStr "unknown") args) statuses
        else statuses in
      fold_left (fun statuses child => extract_statuses child statuses)
        on_hit statuses
  end.

Definition status_counter (data : list Entry) : Counter value :=
  fold_left
    (fun acc entry =>
       fold_left
         (fun acc effect =>
            fold_left (fun acc script => extract_statuses script acc)
              (script effect) acc)
         (effects (ability entry)) acc)
    data [].

Definition analyze_status_effects (self : DiversityAnalyzer)
  : result StatusAnalysis :=
  let statuses := status_counter (data self) in
  entropy <- shannon_entropy statuses ;;
  Ok (mkStatusAnalysis statuses (List.length statuses) entropy).

(** *** [analyze_complexity] *)

Record ComplexityAnalysis : Type := mkComplexityAnalysis {
  avg_scripts_per_ability : R;
  min_scripts : nat;
  max_scripts : nat;
  avg_nesting_depth : R;
  max_nesting_depth : nat;
  complexity_entropy : R
}.

(** The inner function [get_max_depth]. *)
Fixpoint get_max_depth (script_item : ScriptNode) (depth : nat) : nat :=
  match script_item with
  | Script _ _ on_hit =>
      fold_left
        (fun max_d child => Nat.max max_d (get_max_depth child (depth + 1)))
        on_hit depth
  end.

(** The body of [for entry in self.data]: the entry's [total_scripts] and
    [max_depth]. *)
Definition entry_complexity (entry : Entry) : nat * nat :=
  fold_left
    (fun st effect =>
       fold_left
         (fun st script =>
            ((fst st + 1)%nat, Nat.max (snd st) (get_max_depth script 0)))
         (script effect) st)
    (effects (ability entry)) (0%nat, 0%nat).

Definition complexity_lists (data : list Entry) : list nat * list nat :=
  fold_left
    (fun acc entry =>
       let c := entry_complexity entry in
       (fst acc ++ [fst c], snd acc ++ [snd c]))
    data ([], []).

Definition analyze_complexity (self : DiversityAnalyzer)
  : result ComplexityAnalysis :=
  let lists := complexity_lists (data self) in
  let script_lengths := fst lists in
  let nested_depths := snd lists in
  avg_scripts <-
    true_div (INR (list_sum script_lengths)) (INR (List.length script_lengths)) ;;
  min_scripts <- py_min script_lengths ;;
  max_scripts <- py_max script_lengths ;;
  avg_depth <-
    true_div (INR (list_sum nested_depths)) (INR (List.length nested_depths)) ;;
  max_depth <- py_max nested_depths ;;
  entropy <- shannon_entropy (count_all Nat.eqb script_lengths) ;;
  Ok (mkComplexityAnalysis avg_scripts min_scripts max_scripts avg_depth
        max_depth entropy).

(** *** [calculate_overall_diversity_score] *)

Record Analyses : Type := mkAnalyses {
  elements : ElementAnalysis;
  actions : ActionAnalysis;
  status_effects : StatusAnalysis;
  complexity : ComplexityAnalysis
}.

(** [sum(scores)] *)
Definition sum_scores (scores : list R) : R := fold_left Rplus scores 0.

Definition calculate_overall_diversity_score (analyses : Analyses) : result R :=
  let scores := [] in
  let scores := scores ++ [coverage_percent (elements analyses)] in
  let scores := scores ++ [evenness_percent (elements analyses)] in
  let scores := scores ++ [sequence_diversity_percent (actions analyses)] in
  let max_complexity_entropy := log2 5 in
  q <- true_div (complexity_entropy (complexity analyses))
         max_complexity_entropy ;;
  let complexity_score := q * 100 in
  let scores := scores ++ [Rmin complexity_score 100] in
  r <- true_div (INR (unique_statuses (status_effects analyses))) 10 ;;
  let status_coverage := r * 100 in
  let scores := scores ++ [Rmin status_coverage 100] in
  true_div (sum_scores scores) (INR (List.length scores)).

(** The score of a data set: the [analyses] mapping [generate_report] builds
    from the four analyses, handed to [calculate_overall_diversity_score]. *)
Definition overall_score (self : DiversityAnalyzer) : result R :=
  elem_analysis <- analyze_element_combinations self ;;
  action_analysis <- analyze_actions self ;;
  status_analysis <- analyze_status_effects self ;;
  complexity_analysis <- analyze_complexity self ;;
  calculate_overall_diversity_score
    (mkAnalyses elem_analysis action_analysis status_analysis
       complexity_analysis).

(** *** The inline extraction of [main], used when the fixed file is missing *)




Section Fallback.

Variable json_loads : list ascii -> loaded.




End Fallback.

End AnalyzeTrainingDiversity.

(** ** Vocabulary of the statements *)

Module Spans.

Import FixTrainingData.

(** Occurrences of a character in a text. *)
Definition count_char (ch : ascii) (text : list ascii) : nat :=
  List.length (filter (Ascii.eqb ch) text).

(** Opening braces minus closing braces. *)
Definition nesting (text : list ascii) : Z :=
  Z.of_nat (count_char lbrace text) - Z.of_nat (count_char rbrace text).

(** [closes_at_end d w]: read at nesting [d], the text [w] brings the
    nesting back to zero at its last character and not before. *)
Fixpoint closes_at_end (d : Z) (w : list ascii) : bool :=
  match w with
  | [] => false
  | ch :: w' =>
      let d' := d + nesting [ch] in
      if d' =? 0 then match w' with [] => true | _ => false end
      else (0 <? d') && closes_at_end d' w'
  end.

(** A top-level brace-balanced span: it opens with a brace that is closed by
    its last character. *)
Definition is_span (c : list ascii) : bool :=
  match c with
  | ch :: w => Ascii.eqb ch lbrace && closes_at_end 1 w
  | [] => false
  end.

(** [text[i .. j]], both ends included. *)
Definition slice (i j : nat) (text : list ascii) : list ascii :=
  firstn (j + 1 - i) (skipn i text).

(** The object [obj] was recovered at [place = (i, j)]: the text has a
    closing brace at [j], and [text[i .. j]] parses to [obj], which has both
    keys of the loose gate. *)
Definition recovered_at (json_loads : list ascii -> loaded)
  (text : list ascii) (place : nat * nat) (obj : dict) : Prop :=
  (fst place <= snd place < List.length text)%nat /\
  nth_error text (snd place) = Some rbrace /\
  json_loads (slice (fst place) (snd place) text) = Parsed obj /\
  dict_contains "name" obj = true /\
  dict_contains "ability" obj = true.

(** The [try] block applied to a list of candidates in turn, from the
    objects gathered so far; it stops at the first exception that is not
    caught. *)
Fixpoint parse_spans (json_loads : list ascii -> loaded)
  (spans : list (list ascii)) (objects : list dict) : result (list dict) :=
  match spans with
  | [] => Ok objects
  | candidate :: rest =>
      objects' <- try_parse json_loads objects candidate ;;
      parse_spans json_loads rest objects'
  end.


End Spans.

(** ** The strict gate, as the specification words it *)

Module Gate.

(** [ability.primitives] is present with length exactly 2. *)
Definition has_two_primitives (obj : dict) : bool :=
  match dict_get "ability" obj with
  | Some (JObj ability) =>
      match dict_get "primitives" ability with
      | Some prims =>
          match py_len prims with
          | Ok len => (len =? 2)%nat
          | Raise _ => false
          end
      | None => false
      end
  | _ => false
  end.

(** [ability.effects] is present and not empty, by Python's truth value. *)
Definition has_effects (obj : dict) : bool :=
  match dict_get "ability" obj with
  | Some (JObj ability) =>
      match dict_get "effects" ability with
      | Some effects => py_bool effects
      | None => false
      end
  | _ => false
  end.

(** [ability.cooldown] is present. *)
Definition has_cooldown (obj : dict) : bool :=
  match dict_get "ability" obj with
  | Some (JObj ability) => dict_contains "cooldown" ability
  | _ => false
  end.

(** The constraints of the strict gate in the order they are checked, each
    with the reason given when it is the first to fail. *)
Definition constraints : list ((dict -> bool) * string) :=
  [ (dict_contains "name", "Missing field: name");
    (dict_contains "description", "Missing field: description");
    (dict_contains "color", "Missing field: color");
    (dict_contains "ability", "Missing field: ability");
    (has_two_primitives, "Invalid primitives (must have exactly 2)");
    (has_effects, "Missing effects");
    (has_cooldown, "Missing cooldown") ]%string.

Definition strict_gate (obj : dict) : bool :=
  forallb (fun c => fst c obj) constraints.

Definition first_violation (obj : dict) : option string :=
  match find (fun c => negb (fst c obj)) constraints with
  | Some c => Some (snd c)
  | None => None
  end.

(** The same gate, spelled out. *)
Definition passes_strict_gate (obj : dict) : Prop :=
  dict_contains "name" obj = true /\
  dict_contains "description" obj = true /\
  dict_contains "color" obj = true /\
  exists ability,
    dict_get "ability" obj = Some (JObj ability) /\
    (exists prims, dict_get "primitives" ability = Some prims /\
                   py_len prims = Ok 2%nat) /\
    (exists effects, dict_get "effects" ability = Some effects /\
                     py_bool effects = true) /\
    dict_contains "cooldown" ability = true.

(** [len(ability.effects) > 0], when [effects] has a length. *)
Definition effects_len_positive (obj : dict) : Prop :=
  forall ability effects len,
    dict_get "ability" obj = Some (JObj ability) ->
    dict_get "effects" ability = Some effects ->
    py_len effects = Ok len -> (0 < len)%nat.

End Gate.

(** ** Vocabulary of the statistics *)

Module Stats.

Import AnalyzeTrainingDiversity.

Local Open Scope R_scope.

Definition Rsum (l : list R) : R := fold_right Rplus 0 l.

(** [- sum (c/T) * log2 (c/T)] over the counts [c > 0], [T] the sum of all
    counts. *)
Definition entropy_of (counts : list nat) : R :=
  let T := INR (list_sum counts) in
  - Rsum (map (fun c => INR c / T * log2 (INR c / T))
              (filter (fun c => (0 <? c)%nat) counts)).

(** The script nodes that stand directly in an effect's [script] list, over
    the whole data set, in order. *)
Definition top_level_scripts (data : list Entry) : list ScriptNode :=
  flat_map (fun entry => flat_map script (effects (ability entry))) data.

(** A node and all nodes under it through [on_hit], depth first. *)
Fixpoint tree_nodes (node : ScriptNode) : list ScriptNode :=
  match node with
  | Script _ _ on_hit => node :: flat_map tree_nodes on_hit
  end.

(** Every script node of the data set, nested ones included. *)
Definition all_nodes (data : list Entry) : list ScriptNode :=
  flat_map tree_nodes (top_level_scripts data).

Definition is_melee (node : ScriptNode) : bool := action_is node "spawn_melee".

Definition shape_of (node : ScriptNode) : value :=
  args_get "shape" (VStr "unknown") (node_args node).

Definition movement_of (node : ScriptNode) : value :=
  args_get "movement" (VStr "stationary") (node_args node).

(** The distinct sorted primitive pairs observed, in order of first
    occurrence. *)
Definition observed_pairs (data : list Entry) : list (list string) :=
  distinct tuple_eqb (map (fun entry => sorted (primitives (ability entry))) data).

End Stats.

(** ** Invariants of the two scanners *)

Module Invariants.

Import FixTrainingData Spans.

Local Open Scope Z_scope.

(** The flag and the counter agree, and inside an object the buffer's
    nesting is the counter. *)
Definition consistent (st : scan) : Prop :=
  if in_object st
  then 1 <= depth st /\ nesting (current_obj st) = depth st
  else depth st <= 0.

(** Inside an object, whatever closes the counter completes the buffer into
    a span. *)
Definition completes (st : scan) : Prop :=
  in_object st = true ->
  forall tail, closes_at_end (depth st) tail = true ->
               is_span (current_obj st ++ tail) = true.

(** Two scanner states that differ at most in a buffer nobody reads. *)
Definition same_scan (st st' : scan) : Prop :=
  depth st = depth st' /\ in_object st = in_object st' /\
  (in_object st = true -> current_obj st = current_obj st').

(** Inside an object the buffer is the text read since its opening brace,
    and that brace was read at nesting zero. *)
Definition buffered (pre : list ascii) (st : scan) : Prop :=
  in_object st = true ->
  exists i, (i < List.length pre)%nat /\ current_obj st = skipn i pre /\
            nesting (firstn i pre) = 0.


(** [y] is one of [keys], by the equality test of a counter. *)
Definition mem {K : Type} (eqb : K -> K -> bool) (y : K) (keys : list K) : bool :=
  existsb (eqb y) keys.

End Invariants.

(** ** Sample inputs *)

Module Samples.

Import FixTrainingData.

Definition chars (s : string) : list ascii := list_ascii_of_string s.

(** A stand-in for [json.loads] that knows three texts. *)
Definition sample_loads (text : list ascii) : loaded :=
  if list_eq_dec ascii_dec text (chars "{a}") then
    Parsed [("name", JStr "a"); ("ability", JObj [])]%string
  else if list_eq_dec ascii_dec text (chars "{b{}}") then
    Parsed [("name", JStr "b"); ("ability", JObj [])]%string
  else if list_eq_dec ascii_dec text (chars "{}") then Parsed []
  else JSONDecodeError.






(** An object whose [effects] is the number 7. *)
Definition numeric_effects : dict :=
  [ ("name", JStr "Fireburst");
    ("description", JStr "d");
    ("color", JStr "red");
    ("ability",
     JObj [ ("primitives", JArr [JStr "fire"; JStr "fire"]);
            ("effects", JInt 7);
            ("cooldown", JInt 3) ]) ]%string.

(** The record of the specification's scenario A. *)
Definition fireburst : dict :=
  [ ("name", JStr "Fireburst");
    ("description", JStr "d");
    ("color", JStr "red");
    ("ability",
     JObj [ ("primitives", JArr [JStr "fire"; JStr "fire"]);
            ("effects",
             JArr [JObj [("script",
                          JArr [JObj [("action", JStr "damage");
                                      ("args", JObj [("amount", JInt 10)])]])]]);
            ("cooldown", JInt 3) ]) ]%string.

Import AnalyzeTrainingDiversity.

(** One record whose only [spawn_melee] node hangs under [on_hit]. *)
Definition nested_melee : list Entry :=
  [ mkEntry "Riposte"
      (mkAbility ["fire"; "air"]%string
         [ mkEffect
             [ Script (Some "damage"%string) [("amount", VInt 10)]%string
                 [ Script (Some "spawn_melee"%string)
                     [("shape", VStr "arc")]%string [] ] ] ]) ].

(** One record with two top-level [spawn_melee] nodes. *)
Definition two_swings : list Entry :=
  [ mkEntry "Cleave"
      (mkAbility ["earth"; "fire"]%string
         [ mkEffect
             [ Script (Some "spawn_melee"%string)
                 [("shape", VStr "arc"); ("movement", VStr "dash")]%string [];
               Script (Some "spawn_melee"%string) [] [] ] ]) ].

Definition elements8 : list string :=
  ["fire"; "water"; "earth"; "air"; "ice"; "lightning"; "light"; "dark"]%string.

(** One record for each ordered pair of the eight elements, doubled
    elements such as fire with fire included. *)
Definition all_pairs : list Entry :=
  flat_map
    (fun a =>
       map (fun b =>
              mkEntry (String.append a b)
                (mkAbility [a; b]
                   [mkEffect [Script (Some "damage"%string) [] []]]))
           elements8)
    elements8.

(** 141 records, each with a primitive pair of its own. *)
Definition many_pairs : list Entry :=
  map (fun i =>
         mkEntry "x"
           (mkAbility [String (ascii_of_nat i) EmptyString; "z"%string]
              [mkEffect []]))
      (seq 0 141).

End Samples.

(** ** Further vocabulary *)

Module Noise.

Import FixTrainingData.

(** A text without braces. *)
Definition brace_free (w : list ascii) : bool :=
  forallb (fun ch => negb (Ascii.eqb ch lbrace) && negb (Ascii.eqb ch rbrace)) w.

End Noise.

(** ** [main] of fix_training_data.py *)

Module FixMain.

Import FixTrainingData AnalyzeTrainingDiversity.

(** What a run of [main] leaves: the array written to the output file, if
    the run came to write it, and the value returned or the exception
    raised. *)
Record outcome : Type := mkOutcome {
  output_file : option (list dict);
  returned : result nat
}.

Section Main.

Variable json_loads : list ascii -> loaded.

(** [tuple(sorted(prims))] for any parsed value [prims], with the equality
    of the tuples as dict keys: built-ins, taken as parameters. *)
Variable K : Type.
Variable sorted_tuple : json -> result K.
Variable key_eqb : K -> K -> bool.

(** [for obj in valid_objects: prims = tuple(sorted(...));
    element_combos[prims] = element_combos.get(prims, 0) + 1] *)
Fixpoint summary_loop (valid_objects : list dict) (element_combos : Counter K)
  : result (Counter K) :=
  match valid_objects with
  | [] => Ok element_combos
  | obj :: rest =>
      ability <- py_getitem (JObj obj) "ability" ;;
      primitives <- py_getitem ability "primitives" ;;
      prims <- sorted_tuple primitives ;;
      summary_loop rest (incr key_eqb prims element_combos)
  end.

(** [main], on the content read from the input file.  The output file is
    written after the validation loop and before the summary statistics. *)
Definition main (content : list ascii) : outcome :=
  match extract_json_objects json_loads content with
  | Raise e => mkOutcome None (Raise e)
  | Ok objects =>
      match validate_objects objects with
      | Raise e => mkOutcome None (Raise e)
      | Ok (valid_objects, invalid_count) =>
          mkOutcome (Some valid_objects)
            (element_combos <- summary_loop valid_objects [] ;;
             average <- true_div (INR (List.length valid_objects))
                                 (INR (List.length element_combos)) ;;
             Ok (List.length valid_objects))
      end
  end.

End Main.

(** When [validate_ability] raises instead of answering, by the value of
    [ability]. *)
Definition crashes_validator (ability : json) : bool :=
  match ability with
  | JObj d =>
      match dict_get "primitives" d with
      | Some prims => match py_len prims with Ok _ => false | Raise _ => true end
      | None => false
      end
  | JArr l => existsb (is_str "primitives") l
  | JStr s => str_contains "primitives" s
  | _ => true
  end.

(** The objects on which [validate_ability] raises: the four required keys
    are there, and [ability] is such a value. *)
Definition raises_in_validator (obj : dict) : bool :=
  dict_contains "name" obj && dict_contains "description" obj &&
  dict_contains "color" obj &&
  match dict_get "ability" obj with
  | Some ability => crashes_validator ability
  | None => false
  end.

End FixMain.

(** ** Further vocabulary of the statistics *)

Module Walk.

Import AnalyzeTrainingDiversity Stats.

(** The script nodes that stand directly in the effects of one record. *)
Definition entry_scripts (entry : Entry) : list ScriptNode :=
  flat_map script (effects (ability entry)).

(** The actions of those nodes, "unknown" for a node without one. *)
Definition entry_actions (entry : Entry) : list string :=
  map (fun node => get_action node "unknown") (entry_scripts entry).

(** The sorted primitives of one record. *)
Definition entry_pair (entry : Entry) : list string :=
  sorted (primitives (ability entry)).

(** The longest chain of [on_hit] links below a node. *)
Fixpoint height (node : ScriptNode) : nat :=
  match node with
  | Script _ _ on_hit =>
      fold_right (fun child m => Nat.max (S (height child)) m) 0%nat on_hit
  end.

Definition is_apply_status (node : ScriptNode) : bool :=
  action_is node "apply_status".

Definition status_of (node : ScriptNode) : value :=
  args_get "status" (VStr "unknown") (node_args node).

End Walk.

(** ** The walk of [analyze_parameters]

    [extract_values] and the loops that call it, for the two lists read off
    the script nodes ([damage_values], [duration_values]). *)

Module Parameters.

Import AnalyzeTrainingDiversity Stats.

Definition is_damage (node : ScriptNode) : bool := action_is node "damage".

Definition amount_of (node : ScriptNode) : value :=
  args_get "amount" (VInt 0) (node_args node).

Definition duration_of (node : ScriptNode) : value :=
  args_get "duration" (VInt 0) (node_args node).

(** [extract_values(script_item)]; [acc] is [(damage_values,
    duration_values)]. *)
Fixpoint extract_values (script_item : ScriptNode)
  (acc : list value * list value) : list value * list value :=
  match script_item with
  | Script action args on_hit =>
      let damage_values :=
        if action_is script_item "damage"
        then fst acc ++ [args_get "amount" (VInt 0) args]
        else fst acc in
      let duration_values :=
        if action_is script_item "apply_status"
        then snd acc ++ [args_get "duration" (VInt 0) args]
        else snd acc in
      fold_left (fun acc child => extract_values child acc)
        on_hit (damage_values, duration_values)
  end.

(** [for entry in self.data: for effect in ...: for script in ...:
    extract_values(script)] *)
Definition parameter_values (data : list Entry) : list value * list value :=
  fold_left
    (fun acc entry =>
       fold_left
         (fun acc effect =>
            fold_left (fun acc script => extract_values script acc)
              (script effect) acc)
         (effects (ability entry)) acc)
    data ([], []).

End Parameters.

(** ** Further sample inputs *)

Module MoreSamples.

Import Py Json FixTrainingData AnalyzeTrainingDiversity Samples.

(** An object with the four required keys whose [ability] is null. *)
Definition null_ability : dict :=
  [ ("name", JStr "n"); ("description", JStr "d"); ("color", JStr "red");
    ("ability", JNull) ]%string.

(** A stand-in for [json.loads] that knows two texts. *)
Definition loads_two (text : list ascii) : loaded :=
  if list_eq_dec ascii_dec text (chars "{f}") then Parsed fireburst
  else if list_eq_dec ascii_dec text (chars "{n}") then Parsed null_ability
  else JSONDecodeError.

(** A stand-in for [tuple(sorted(prims))] on a list of strings. *)
Fixpoint strings_of (l : list json) : result (list string) :=
  match l with
  | [] => Ok []
  | JStr s :: rest => strs <- strings_of rest ;; Ok (s :: strs)
  | _ :: _ => Raise TypeError
  end.

Definition sorted_strings (prims : json) : result (list string) :=
  match prims with
  | JArr l => strs <- strings_of l ;; Ok (sorted strs)
  | _ => Raise TypeError
  end.

(** Two records with a primitive pair each, and the same with the
    primitives the other way round. *)
Definition two_pairs : list Entry :=
  [ mkEntry "Steam" (mkAbility ["water"; "fire"]%string []);
    mkEntry "Frostfire" (mkAbility ["ice"; "fire"]%string []) ].

Definition two_pairs_swapped : list Entry :=
  [ mkEntry "Steam" (mkAbility ["fire"; "water"]%string []);
    mkEntry "Frostfire" (mkAbility ["fire"; "ice"]%string []) ].

End MoreSamples.

(** ** The brace scanner *)

Module ScanFacts.

Import FixTrainingData Spans Invariants.

Local Open Scope Z_scope.

Ltac scan_cases ch :=
  unfold scan_char, on_close, on_char, on_open;
  destruct (Ascii.eqb_spec ch lbrace); destruct (Ascii.eqb_spec ch rbrace);
  try (subst; discriminate).

Lemma nesting_nil : nesting [] = 0.
Proof. reflexivity. Qed.

Lemma nesting_cons (ch : ascii) (text : list ascii) :
  nesting (ch :: text) = nesting [ch] + nesting text.
Proof.
  unfold nesting, count_char. cbn [filter].
  destruct (Ascii.eqb lbrace ch), (Ascii.eqb rbrace ch); cbn [Datatypes.length]; lia.
Qed.

Lemma nesting_app (a b : list ascii) : nesting (a ++ b) = nesting a + nesting b.
Proof.
  induction a as [|ch a IH]; cbn [app].
  - rewrite nesting_nil. lia.
  - rewrite (nesting_cons ch (a ++ b)), (nesting_cons ch a), IH. lia.
Qed.

Lemma nesting_lbrace : nesting [lbrace] = 1.
Proof. reflexivity. Qed.

Lemma nesting_rbrace : nesting [rbrace] = -1.
Proof. reflexivity. Qed.

Lemma nesting_other (ch : ascii) :
  ch <> lbrace -> ch <> rbrace -> nesting [ch] = 0.
Proof.
  intros Hl Hr. unfold nesting, count_char. cbn [filter].
  destruct (Ascii.eqb_spec lbrace ch); [congruence|].
  destruct (Ascii.eqb_spec rbrace ch); [congruence|]. reflexivity.
Qed.

(** The counter moves by one on a brace and not at all otherwise. *)
Lemma scan_char_depth (st : scan) (ch : ascii) :
  depth (fst (scan_char st ch)) = depth st + nesting [ch].
Proof.
  scan_cases ch; subst;
    rewrite ?nesting_lbrace, ?nesting_rbrace, ?nesting_other by assumption;
    repeat (match goal with |- context [if ?b then _ else _] => destruct b end;
            simpl); lia.
Qed.

Lemma scan_state_depth (st : scan) (text : list ascii) :
  depth (scan_state st text) = depth st + nesting text.
Proof.
  revert st. induction text as [|ch text IH]; intros st; simpl.
  - rewrite nesting_nil. lia.
  - rewrite IH, scan_char_depth, (nesting_cons ch text). lia.
Qed.

Lemma spans_from_app (st : scan) (a b : list ascii) :
  spans_from st (a ++ b) = spans_from st a ++ spans_from (scan_state st a) b.
Proof.
  revert st. induction a as [|ch a IH]; intros st; simpl; [reflexivity|].
  destruct (scan_char st ch) as [st' [c|]]; simpl; rewrite IH; reflexivity.
Qed.

Lemma consistent_init : consistent scan_init.
Proof. unfold consistent; simpl. lia. Qed.

Lemma scan_char_consistent (st : scan) (ch : ascii) :
  consistent st ->
  consistent (fst (scan_char st ch)) /\
  forall c, snd (scan_char st ch) = Some c -> nesting c = 0.
Proof.
  unfold consistent. destruct st as [d cur io]. simpl.
  scan_cases ch; subst; simpl.
  - destruct (Z.eqb_spec d 0); destruct io; simpl; intros H;
      rewrite ?nesting_app, ?nesting_lbrace, ?nesting_nil;
      (split; [lia | discriminate]).
  - destruct io; simpl; intros H.
    + destruct (Z.eqb_spec (d - 1) 0); simpl.
      * split; [lia|]. intros c [= <-].
        rewrite nesting_app, nesting_rbrace. lia.
      * rewrite nesting_app, nesting_rbrace. split; [lia | discriminate].
    + rewrite andb_false_r. simpl. split; [lia | discriminate].
  - destruct io; simpl; intros H; rewrite ?nesting_app, ?nesting_other by assumption;
      (split; [lia | discriminate]).
Qed.

Lemma scan_state_consistent (st : scan) (text : list ascii) :
  consistent st -> consistent (scan_state st text).
Proof.
  revert st. induction text as [|ch text IH]; intros st H; simpl; [exact H|].
  apply IH, scan_char_consistent, H.
Qed.

Lemma spans_from_nesting (st : scan) (text : list ascii) :
  consistent st -> Forall (fun c => nesting c = 0) (spans_from st text).
Proof.
  revert st. induction text as [|ch text IH]; intros st H; simpl; [constructor|].
  destruct (scan_char_consistent st ch H) as [H1 H2].
  destruct (scan_char st ch) as [st' [c|]]; simpl in *.
  - constructor; [apply H2; reflexivity | apply IH, H1].
  - apply IH, H1.
Qed.

Lemma completes_init : completes scan_init.
Proof. unfold completes; simpl. discriminate. Qed.

Lemma closes_at_end_step (d : Z) (ch : ascii) (tail : list ascii) :
  0 < d + nesting [ch] ->
  closes_at_end (d + nesting [ch]) tail = true ->
  closes_at_end d (ch :: tail) = true.
Proof.
  intros Hpos Htail. cbn [closes_at_end].
  destruct (Z.eqb_spec (d + nesting [ch]) 0); [lia|].
  rewrite Htail. destruct (Z.ltb_spec 0 (d + nesting [ch])); [reflexivity | lia].
Qed.

Lemma is_span_snoc (cur : list ascii) (ch : ascii) (tail : list ascii) :
  is_span (cur ++ ch :: tail) = is_span ((cur ++ [ch]) ++ tail).
Proof. rewrite <- app_assoc. reflexivity. Qed.

Lemma scan_char_completes (st : scan) (ch : ascii) :
  consistent st -> completes st ->
  completes (fst (scan_char st ch)) /\
  forall c, snd (scan_char st ch) = Some c -> is_span c = true.
Proof.
  unfold consistent, completes. destruct st as [d cur io]. simpl.
  scan_cases ch; subst; simpl.
  - destruct (Z.eqb_spec d 0); destruct io; simpl; intros Hc Hk;
      (split; [| discriminate]); intros Hio tail Htail; try discriminate.
    + lia.
    + subst d. exact Htail.
    + rewrite <- is_span_snoc. apply Hk; [reflexivity|].
      apply closes_at_end_step; rewrite nesting_lbrace; [lia | exact Htail].
  - destruct io; simpl; intros Hc Hk.
    + destruct (Z.eqb_spec (d - 1) 0); simpl.
      * split; [discriminate|]. intros c [= <-].
        apply Hk; [reflexivity|]. cbn [closes_at_end].
        rewrite nesting_rbrace.
        destruct (Z.eqb_spec (d + -1) 0); [reflexivity | lia].
      * split; [| discriminate]. intros _ tail Htail.
        rewrite <- is_span_snoc. apply Hk; [reflexivity|].
        apply closes_at_end_step; rewrite nesting_rbrace;
          [lia | replace (d + -1) with (d - 1) by lia; exact Htail].
    + rewrite andb_false_r. simpl. split; discriminate.
  - destruct io; simpl; intros Hc Hk; (split; [| discriminate]);
      intros Hio tail Htail; try discriminate.
    rewrite <- is_span_snoc. apply Hk; [reflexivity|].
    apply closes_at_end_step; rewrite nesting_other by assumption;
      [lia | replace (d + 0) with d by lia; exact Htail].
Qed.

Lemma spans_from_are_spans (st : scan) (text : list ascii) :
  consistent st -> completes st ->
  Forall (fun c => is_span c = true) (spans_from st text).
Proof.
  revert st. induction text as [|ch text IH]; intros st Hc Hk; simpl;
    [constructor|].
  destruct (scan_char_consistent st ch Hc) as [H1 _].
  destruct (scan_char_completes st ch Hc Hk) as [H2 H3].
  destruct (scan_char st ch) as [st' [c|]]; simpl in *.
  - constructor; [apply H3; reflexivity | apply IH; assumption].
  - apply IH; assumption.
Qed.

Lemma nesting_zero_counts (c : list ascii) :
  nesting c = 0 -> count_char lbrace c = count_char rbrace c.
Proof. unfold nesting. lia. Qed.

(** C1, as the code has it.  Every candidate span handed to [json.loads]
    holds as many opening as closing braces and is a top-level span (its
    nesting stays positive up to its closing brace).  The counter itself is
    the number of opening braces read minus the number of closing braces
    read: it is at least 1 while a span is accumulated, at most 0 otherwise,
    and nothing keeps it from going below zero. *)
Theorem spans_balanced_counter_is_nesting (text : list ascii) :
  Forall (fun span => count_char lbrace span = count_char rbrace span /\
                      is_span span = true)
         (candidate_spans text) /\
  (forall pre post, text = pre ++ post ->
     let st := scan_state scan_init pre in
     depth st = nesting pre /\
     (in_object st = true -> 1 <= depth st) /\
     (in_object st = false -> depth st <= 0)).
Proof.
  split.
  - unfold candidate_spans.
    pose proof (spans_from_nesting scan_init text consistent_init) as Hn.
    pose proof (spans_from_are_spans scan_init text consistent_init
                  completes_init) as Hs.
    rewrite Forall_forall in *. intros c Hin. split.
    + apply nesting_zero_counts, Hn, Hin.
    + apply Hs, Hin.
  - intros pre post _ st. subst st. split.
    + rewrite scan_state_depth. simpl. lia.
    + pose proof (scan_state_consistent scan_init pre consistent_init) as Hc.
      unfold consistent in Hc.
      destruct (in_object (scan_state scan_init pre)); split;
        intros; try discriminate; lia.
Qed.

(** C1, as stated, fails on a text that is one closing brace: the counter
    ends at -1. *)
Lemma stray_closing_brace_goes_negative :
  depth (scan_state scan_init [rbrace]) = -1 /\
  ~ (0 <= depth (scan_state scan_init [rbrace])).
Proof. split; [reflexivity | vm_compute; intros H; apply H; reflexivity]. Qed.

End ScanFacts.

(** ** The extractor *)

Module ExtractFacts.

Import FixTrainingData Spans Invariants ScanFacts.

Local Open Scope Z_scope.

Lemma scan_char_same (st st' : scan) (ch : ascii) :
  same_scan st st' ->
  same_scan (fst (scan_char st ch)) (fst (scan_char st' ch)) /\
  snd (scan_char st ch) = snd (scan_char st' ch).
Proof.
  unfold same_scan. destruct st as [d cur io], st' as [d' cur' io']. simpl.
  intros (-> & -> & Hcur).
  scan_cases ch; subst; simpl.
  - destruct (Z.eqb_spec d' 0); simpl; [repeat split|].
    destruct io'; simpl; [rewrite (Hcur eq_refl)|]; repeat split; discriminate.
  - destruct io'; simpl.
    + rewrite (Hcur eq_refl). destruct (d' - 1 =? 0); simpl; repeat split;
        discriminate.
    + rewrite andb_false_r. simpl. repeat split; discriminate.
  - destruct io'; simpl; [rewrite (Hcur eq_refl)|]; repeat split; discriminate.
Qed.

Lemma spans_from_same (st st' : scan) (text : list ascii) :
  same_scan st st' -> spans_from st text = spans_from st' text.
Proof.
  revert st st'. induction text as [|ch text IH]; intros st st' H; simpl;
    [reflexivity|].
  destruct (scan_char_same st st' ch H) as [H1 H2].
  destruct (scan_char st ch) as [s1 e1], (scan_char st' ch) as [s2 e2].
  simpl in *. subst e2. rewrite (IH s1 s2 H1). reflexivity.
Qed.




Section WithParser.

Variable json_loads : list ascii -> loaded.

Lemma scan_loop_spans (st : scan) (objects : list dict) (text : list ascii) :
  scan_loop json_loads st objects text =
  parse_spans json_loads (spans_from st text) objects.
Proof.
  revert st objects. induction text as [|ch text IH]; intros st objects; simpl;
    [reflexivity|].
  destruct (scan_char st ch) as [st' [c|]]; simpl; [|apply IH].
  destruct (try_parse json_loads objects c); simpl; [apply IH | reflexivity].
Qed.

Lemma extract_spans (text : list ascii) :
  extract_json_objects json_loads text =
  parse_spans json_loads (candidate_spans text) [].
Proof. apply scan_loop_spans. Qed.

Lemma try_parse_app (objects : list dict) (c : list ascii) :
  try_parse json_loads objects c =
  (found <- try_parse json_loads [] c ;; Ok (objects ++ found)).
Proof.
  unfold try_parse. destruct (json_loads c) as [obj| |e]; simpl;
    [|rewrite app_nil_r; reflexivity | reflexivity].
  destruct (dict_contains "name" obj && dict_contains "ability" obj); simpl;
    [reflexivity | rewrite app_nil_r; reflexivity].
Qed.

Lemma parse_spans_app (l1 l2 : list (list ascii)) (objects : list dict) :
  parse_spans json_loads (l1 ++ l2) objects =
  (found <- parse_spans json_loads l1 objects ;; parse_spans json_loads l2 found).
Proof.
  revert objects. induction l1 as [|c l1 IH]; intros objects; simpl;
    [reflexivity|].
  destruct (try_parse json_loads objects c); simpl; [apply IH | reflexivity].
Qed.

Lemma parse_spans_shift (l : list (list ascii)) (objects : list dict) :
  parse_spans json_loads l objects =
  (found <- parse_spans json_loads l [] ;; Ok (objects ++ found)).
Proof.
  revert objects. induction l as [|c l IH]; intros objects; simpl.
  - rewrite app_nil_r. reflexivity.
  - rewrite (try_parse_app objects c).
    destruct (try_parse json_loads [] c) as [found|e]; simpl; [|reflexivity].
    rewrite (IH (objects ++ found)), (IH found).
    destruct (parse_spans json_loads l []) as [more|e]; simpl; [|reflexivity].
    rewrite app_assoc. reflexivity.
Qed.

(** The candidates of a text cut where the counter is zero. *)
Lemma candidate_spans_cut (t1 t2 : list ascii) :
  depth (scan_state scan_init t1) = 0 ->
  candidate_spans (t1 ++ t2) = candidate_spans t1 ++ candidate_spans t2.
Proof.
  intros Hd. unfold candidate_spans. rewrite spans_from_app. f_equal.
  apply spans_from_same.
  pose proof (scan_state_consistent scan_init t1 consistent_init) as Hc.
  unfold consistent in Hc. unfold same_scan. rewrite Hd. simpl.
  destruct (in_object (scan_state scan_init t1)); [lia|].
  repeat split. discriminate.
Qed.

(** The extraction of a text cut where the counter is zero: the first part
    is extracted, then the second. *)
Lemma extract_cut (t1 t2 : list ascii) :
  depth (scan_state scan_init t1) = 0 ->
  extract_json_objects json_loads (t1 ++ t2) =
  (first <- extract_json_objects json_loads t1 ;;
   second <- extract_json_objects json_loads t2 ;;
   Ok (first ++ second)).
Proof.
  intros Hd. rewrite !extract_spans, (candidate_spans_cut t1 t2 Hd).
  rewrite parse_spans_app.
  destruct (parse_spans json_loads (candidate_spans t1) []) as [first|e];
    simpl; [apply parse_spans_shift | reflexivity].
Qed.



(** *** Where the recovered objects come from *)

Lemma skipn_snoc (i : nat) (pre : list ascii) (ch : ascii) :
  (i <= List.length pre)%nat -> skipn i (pre ++ [ch]) = skipn i pre ++ [ch].
Proof.
  intros Hi. rewrite skipn_app.
  replace (i - List.length pre)%nat with 0%nat by lia. reflexivity.
Qed.

Lemma slice_snoc (i : nat) (pre : list ascii) (ch : ascii) (rest : list ascii) :
  (i <= List.length pre)%nat ->
  slice i (List.length pre) (pre ++ ch :: rest) = skipn i (pre ++ [ch]).
Proof.
  intros Hi. unfold slice. rewrite skipn_snoc by exact Hi.
  rewrite skipn_app. replace (i - List.length pre)%nat with 0%nat by lia.
  cbn [skipn]. rewrite firstn_app, length_skipn.
  replace (List.length pre + 1 - i - (List.length pre - i))%nat with 1%nat by lia.
  rewrite firstn_all2 by (rewrite length_skipn; lia). reflexivity.
Qed.

Lemma firstn_snoc (i : nat) (pre : list ascii) (ch : ascii) :
  (i <= List.length pre)%nat -> firstn i (pre ++ [ch]) = firstn i pre.
Proof.
  intros Hi. rewrite firstn_app.
  replace (i - List.length pre)%nat with 0%nat by lia.
  cbn [firstn]. apply app_nil_r.
Qed.

Lemma scan_char_buffered (pre : list ascii) (st : scan) (ch : ascii) :
  depth st = nesting pre ->
  buffered pre st ->
  buffered (pre ++ [ch]) (fst (scan_char st ch)) /\
  forall c, snd (scan_char st ch) = Some c ->
    ch = rbrace /\
    exists i, (i <= List.length pre)%nat /\ c = skipn i (pre ++ [ch]) /\
              nesting (firstn i (pre ++ [ch])) = 0.
Proof.
  unfold buffered. destruct st as [d cur io]. simpl. intros Hd Hb.
  assert (Hsnoc : io = true ->
            exists i, (i < List.length (pre ++ [ch]))%nat /\
                      (i <= List.length pre)%nat /\
                      cur ++ [ch] = skipn i (pre ++ [ch]) /\
                      nesting (firstn i (pre ++ [ch])) = 0).
  { intros Hio. destruct (Hb Hio) as (i & Hi & -> & Hn). exists i.
    rewrite length_app. simpl. repeat split; try lia.
    - symmetry. apply skipn_snoc. lia.
    - rewrite firstn_snoc by lia. exact Hn. }
  revert Hd. scan_cases ch; subst; simpl; intros Hd.
  - split; [| discriminate]. destruct (Z.eqb_spec d 0) as [E|E]; simpl.
    + intros _. exists (List.length pre). rewrite length_app. simpl.
      split; [lia|]. split.
      * rewrite skipn_app, skipn_all, Nat.sub_diag. reflexivity.
      * rewrite firstn_snoc, firstn_all by lia. lia.
    + destruct io; simpl; [|discriminate]. intros _.
      destruct (Hsnoc eq_refl) as (i & H1 & _ & H2 & H3). exists i.
      repeat split; assumption.
  - destruct io; simpl.
    + destruct (Hsnoc eq_refl) as (i & H1 & H1' & H2 & H3).
      destruct (d - 1 =? 0); simpl.
      * split; [discriminate|]. intros c [= <-]. split; [reflexivity|].
        exists i. repeat split; assumption.
      * split; [| discriminate]. intros _. exists i. repeat split; assumption.
    + rewrite andb_false_r. simpl. split; discriminate.
  - split; [| discriminate]. destruct io; simpl; [|discriminate]. intros _.
    destruct (Hsnoc eq_refl) as (i & H1 & _ & H2 & H3). exists i.
    repeat split; assumption.
Qed.

Lemma scan_char_nesting (pre : list ascii) (st : scan) (ch : ascii) :
  depth st = nesting pre ->
  depth (fst (scan_char st ch)) = nesting (pre ++ [ch]).
Proof. intros H. rewrite scan_char_depth, nesting_app, H. reflexivity. Qed.



Lemma sorted_snoc (l : list nat) (y : nat) :
  StronglySorted lt l -> Forall (fun x => (x < y)%nat) l ->
  StronglySorted lt (l ++ [y]).
Proof.
  induction 1 as [|x l Hs IH Hx]; intros Hall; simpl.
  - repeat constructor.
  - inversion Hall; subst. constructor; [apply IH; assumption|].
    apply Forall_app. split; [exact Hx | repeat constructor; assumption].
Qed.

Lemma scan_loop_places (text : list ascii) :
  forall rest pre st objects places returned,
    text = pre ++ rest ->
    depth st = nesting pre ->
    buffered pre st ->
    Forall2 (recovered_at json_loads text) places objects ->
    Forall (fun p => (snd p < List.length pre)%nat) places ->
    StronglySorted lt (map snd places) ->
    scan_loop json_loads st objects rest = Ok returned ->
    exists places',
      Forall2 (recovered_at json_loads text) places' returned /\
      StronglySorted lt (map snd places').
Proof.
  induction rest as [|ch rest IH];
    intros pre st objects places returned Ht Hd Hb Hp Hlt Hs Hrun.
  - simpl in Hrun. injection Hrun as <-. exists places. split; assumption.
  - cbn [scan_loop] in Hrun.
    destruct (scan_char_buffered pre st ch Hd Hb) as [Hb' Hem].
    pose proof (scan_char_nesting pre st ch Hd) as Hd'.
    assert (Ht' : text = (pre ++ [ch]) ++ rest).
    { rewrite <- app_assoc. exact Ht. }
    assert (Hlt' : Forall (fun p => (snd p < List.length (pre ++ [ch]))%nat) places).
    { rewrite length_app. simpl. eapply Forall_impl; [|exact Hlt].
      simpl. intros; lia. }
    destruct (scan_char st ch) as [st' [c|]]; cbn [fst snd] in *.
    + destruct (Hem c eq_refl) as (-> & i & Hi & -> & _).
      unfold try_parse in Hrun.
      destruct (json_loads (skipn i (pre ++ [rbrace]))) as [obj| |e] eqn:Hload;
        [| cbn [bind] in Hrun; eapply IH; eassumption | discriminate].
      destruct (dict_contains "name" obj) eqn:Hname;
        [| cbn [andb bind] in Hrun; eapply IH; eassumption].
      destruct (dict_contains "ability" obj) eqn:Hability;
        [| cbn [andb bind] in Hrun; eapply IH; eassumption].
      cbn [andb bind] in Hrun.
      apply (IH (pre ++ [rbrace]) st' (objects ++ [obj])
                (places ++ [(i, List.length pre)]) returned); try assumption.
      * apply Forall2_app; [exact Hp|]. constructor; [|constructor].
        unfold recovered_at. cbn [fst snd]. rewrite Ht.
        rewrite slice_snoc by exact Hi. rewrite length_app. cbn [List.length].
        repeat split; try assumption; try lia.
        rewrite nth_error_app2, Nat.sub_diag by lia. reflexivity.
      * apply Forall_app. split; [exact Hlt'|]. repeat constructor.
        cbn [snd]. rewrite length_app. simpl. lia.
      * rewrite map_app. apply sorted_snoc; [exact Hs|].
        rewrite Forall_map. exact Hlt.
    + eapply IH; eassumption.
Qed.

(** C9.  Each object of the list [extract_json_objects] returns is what
    [json.loads] made of a piece [text[i .. j]] of the text that ends on a
    closing brace, and it has the keys [name] and [ability]; the closing
    braces of successive objects come one after the other in the text. *)
Theorem extracted_objects_parsed_gated_in_order (text : list ascii)
  (objects : list dict) :
  extract_json_objects json_loads text = Ok objects ->
  exists places : list (nat * nat),
    Forall2 (recovered_at json_loads text) places objects /\
    StronglySorted lt (map snd places).
Proof.
  intros Hrun.
  apply (scan_loop_places text text [] scan_init [] [] objects).
  - reflexivity.
  - reflexivity.
  - unfold buffered. simpl. discriminate.
  - constructor.
  - constructor.
  - constructor.
  - exact Hrun.
Qed.

(** *** The inline extraction of the analysis tool *)






End WithParser.

End ExtractFacts.

Module ExtractWitnesses.

Import FixTrainingData Spans Samples.





(** C9 at the text [x{a}{q}{b{}}]. *)
Lemma extracted_objects_parsed_gated_in_order_witness :
  extract_json_objects sample_loads (chars "x{a}{q}{b{}}") =
    Ok [[("name", JStr "a"); ("ability", JObj [])];
        [("name", JStr "b"); ("ability", JObj [])]]%string /\
  exists places : list (nat * nat),
    Forall2 (recovered_at sample_loads (chars "x{a}{q}{b{}}")) places
      [[("name", JStr "a"); ("ability", JObj [])];
       [("name", JStr "b"); ("ability", JObj [])]]%string /\
    StronglySorted lt (map snd places).
Proof.
  assert (H : extract_json_objects sample_loads (chars "x{a}{q}{b{}}") =
              Ok [[("name", JStr "a"); ("ability", JObj [])];
                  [("name", JStr "b"); ("ability", JObj [])]]%string)
    by reflexivity.
  split; [exact H|].
  exact (ExtractFacts.extracted_objects_parsed_gated_in_order sample_loads
           (chars "x{a}{q}{b{}}") _ H).
Defined.

(** After the stray closing brace the counter is negative, and the last
    [{a}] is not seen as a candidate. *)
Example extract_sample :
  extract_json_objects sample_loads (chars "x{a}{q}{b{}}}{a}") =
  Ok [[("name", JStr "a"); ("ability", JObj [])];
      [("name", JStr "b"); ("ability", JObj [])]]%string.
Proof. reflexivity. Qed.

End ExtractWitnesses.

(** ** The validator *)

Module ValidateFacts.

Import FixTrainingData Gate.

Lemma dict_contains_get (key : string) (d : dict) :
  dict_contains key d =
  match dict_get key d with Some _ => true | None => false end.
Proof.
  unfold dict_contains, dict_get. induction d as [|[k v] d IH]; simpl;
    [reflexivity|].
  destruct (String.eqb key k); [reflexivity | exact IH].
Qed.

Lemma py_bool_len (v : json) (len : nat) :
  py_bool v = true -> py_len v = Ok len -> (0 < len)%nat.
Proof.
  destruct v as [| | | |s|l|d]; simpl; try discriminate.
  - destruct s; simpl; [discriminate|]. intros _ [= <-]. lia.
  - destruct l; simpl; [discriminate|]. intros _ [= <-]. lia.
  - destruct d; simpl; [discriminate|]. intros _ [= <-]. lia.
Qed.

(** What [validate_ability] answers, against the ordered constraints. *)
Lemma validate_ability_table (obj : dict) :
  match validate_ability obj with
  | Ok (true, msg) => msg = "OK"%string /\ first_violation obj = None
  | Ok (false, msg) => first_violation obj = Some msg
  | Raise _ => strict_gate obj = false
  end.
Proof.
  unfold validate_ability, first_violation, strict_gate, constraints,
    has_two_primitives, has_effects, has_cooldown, required_fields, py_in,
    py_getitem.
  cbn [check_required find forallb fst snd].
  rewrite !dict_contains_get.
  destruct (dict_get "name" obj); [|reflexivity].
  destruct (dict_get "description" obj); [|reflexivity].
  destruct (dict_get "color" obj); [|reflexivity].
  destruct (dict_get "ability" obj) as [ability|]; [|reflexivity].
  cbn [negb bind andb].
  destruct ability as [| | | |s|l|ability]; cbn [bind]; try reflexivity.
  - destruct (str_contains "primitives" s); reflexivity.
  - destruct (existsb (is_str "primitives") l); reflexivity.
  - rewrite !dict_contains_get.
    destruct (dict_get "primitives" ability) as [prims|]; [|reflexivity].
    cbn [negb bind].
    destruct (py_len prims) as [len|]; [|reflexivity]. cbn [bind].
    destruct (len =? 2)%nat; [|reflexivity]. cbn [negb bind andb].
    destruct (dict_get "effects" ability) as [effects|]; [|reflexivity].
    cbn [negb bind].
    destruct (py_bool effects); [|reflexivity]. cbn [negb bind andb].
    destruct (dict_get "cooldown" ability); [|reflexivity].
    cbn [negb]. split; reflexivity.
Qed.

Lemma first_violation_none (obj : dict) :
  first_violation obj = None <-> strict_gate obj = true.
Proof.
  unfold first_violation, strict_gate.
  induction constraints as [|c l IH]; simpl; [tauto|].
  destruct (fst c obj); simpl; [exact IH|]. split; discriminate.
Qed.

Lemma strict_gate_spec (obj : dict) :
  strict_gate obj = true <-> passes_strict_gate obj.
Proof.
  unfold strict_gate, passes_strict_gate, constraints, has_two_primitives,
    has_effects, has_cooldown.
  cbn [forallb fst]. rewrite !andb_true_iff, !dict_contains_get.
  split.
  - intros (Hn & Hd & Hc & Ha & Hp & He & Hcd & _).
    repeat (split; [assumption|]).
    destruct (dict_get "ability" obj) as [[| | | | | |ability]|];
      try discriminate.
    exists ability. split; [reflexivity|].
    repeat split; try assumption.
    + destruct (dict_get "primitives" ability) as [prims|]; [|discriminate].
      exists prims. split; [reflexivity|].
      destruct (py_len prims) as [len|]; [|discriminate].
      apply Nat.eqb_eq in Hp. subst. reflexivity.
    + destruct (dict_get "effects" ability) as [effects|]; [|discriminate].
      exists effects. split; [reflexivity | assumption].
  - intros (Hn & Hd & Hc & ability & Ha & (prims & Hp & Hlen) &
            (effects & He & Hb) & Hcd).
    rewrite Ha, Hp, Hlen, He, Hb.
    repeat split; assumption.
Qed.

Lemma validate_ability_accepts (obj : dict) (msg : string) :
  validate_ability obj = Ok (true, msg) ->
  msg = "OK"%string /\ passes_strict_gate obj.
Proof.
  intros H. pose proof (validate_ability_table obj) as T. rewrite H in T.
  destruct T as [T1 T2]. split; [exact T1|].
  apply strict_gate_spec, first_violation_none, T2.
Qed.

Lemma passes_effects_len (obj : dict) :
  passes_strict_gate obj -> effects_len_positive obj.
Proof.
  intros (_ & _ & _ & ability & Ha & _ & (effects & He & Hb) & _).
  intros ability' effects' len Ha' He' Hlen.
  rewrite Ha in Ha'. injection Ha' as <-. rewrite He in He'.
  injection He' as <-. eapply py_bool_len; eassumption.
Qed.

Lemma validate_loop_valid (objects : list dict) :
  forall valid_objects invalid_count valid' invalid',
    validate_loop objects valid_objects invalid_count = Ok (valid', invalid') ->
    exists kept,
      valid' = valid_objects ++ kept /\
      Forall (fun obj => In obj objects /\ passes_strict_gate obj) kept.
Proof.
  induction objects as [|obj rest IH];
    intros valid_objects invalid_count valid' invalid' H.
  - injection H as <- <-. exists []. rewrite app_nil_r. split; constructor.
  - cbn [validate_loop] in H.
    destruct (validate_ability obj) as [[is_valid msg]|e] eqn:Hv;
      [|discriminate].
    cbn [bind fst] in H. destruct is_valid.
    + destruct (IH _ _ _ _ H) as (kept & -> & Hk).
      exists (obj :: kept). rewrite <- app_assoc. split; [reflexivity|].
      constructor.
      * split; [left; reflexivity|].
        apply (validate_ability_accepts obj msg Hv).
      * eapply Forall_impl; [|exact Hk]. simpl. intros o [Hin Hp].
        split; [right; exact Hin | exact Hp].
    + destruct (IH _ _ _ _ H) as (kept & -> & Hk).
      exists kept. split; [reflexivity|].
      eapply Forall_impl; [|exact Hk]. simpl. intros o [Hin Hp].
      split; [right; exact Hin | exact Hp].
Qed.

(** C5, as the code has it.  [validate_ability] answers [(True, "OK")]
    exactly for the objects that have the keys [name], [description],
    [color] and [ability], whose [ability] is an object with [primitives] of
    length 2, with [effects] that is true as a Python value, and with
    [cooldown].  Every object the loop of [main] keeps is one of the objects
    it was given and passes this gate, and its [effects] has positive length
    whenever it has a length.  A rejection [(False, msg)] carries the reason
    of the first constraint, in checking order, that the object violates. *)
Theorem validate_ability_strict_gate :
  (forall obj, validate_ability obj = Ok (true, "OK"%string) <->
               passes_strict_gate obj) /\
  (forall obj msg, validate_ability obj = Ok (true, msg) -> msg = "OK"%string) /\
  (forall objects valid_objects invalid_count,
     validate_objects objects = Ok (valid_objects, invalid_count) ->
     Forall (fun obj => In obj objects /\ passes_strict_gate obj /\
                        effects_len_positive obj) valid_objects) /\
  (forall obj msg, validate_ability obj = Ok (false, msg) ->
                   first_violation obj = Some msg).
Proof.
  split; [|split; [|split]].
  - intros obj. split.
    + intros H. apply (validate_ability_accepts obj _ H).
    + intros H. apply strict_gate_spec, first_violation_none in H.
      pose proof (validate_ability_table obj) as T.
      destruct (validate_ability obj) as [[[|] msg]|e].
      * destruct T as [-> _]. reflexivity.
      * rewrite H in T. discriminate.
      * apply first_violation_none in H. rewrite H in T. discriminate.
  - intros obj msg H. apply (validate_ability_accepts obj msg H).
  - intros objects valid_objects invalid_count H.
    destruct (validate_loop_valid objects [] 0%nat _ _ H) as (kept & -> & Hk).
    simpl. eapply Forall_impl; [|exact Hk]. simpl. intros o [Hin Hp].
    split; [exact Hin|]. split; [exact Hp|]. apply passes_effects_len, Hp.
  - intros obj msg H. pose proof (validate_ability_table obj) as T.
    rewrite H in T. exact T.
Qed.

(** C5, as stated, fails on an object whose [effects] is the number 7: it
    is accepted and kept by the loop of [main], and its [effects] has no
    length, so that [len(ability.effects) > 0] does not hold of it. *)
Lemma numeric_effects_accepted :
  validate_ability Samples.numeric_effects = Ok (true, "OK"%string) /\
  validate_objects [Samples.numeric_effects] =
    Ok ([Samples.numeric_effects], 0%nat) /\
  ~ (exists len, py_len (JInt 7) = Ok len /\ (0 < len)%nat).
Proof.
  repeat split. intros (len & H & _). discriminate.
Qed.

Example validate_fireburst :
  validate_ability Samples.fireburst = Ok (true, "OK"%string).
Proof. reflexivity. Qed.

Example validate_rejects_in_order :
  validate_ability [("name", JStr "x"); ("ability", JObj [])]%string =
  Ok (false, "Missing field: description"%string).
Proof. reflexivity. Qed.

Example validate_raises_on_number :
  validate_ability
    [("name", JNull); ("description", JNull); ("color", JNull);
     ("ability", JInt 5)]%string = Raise TypeError.
Proof. reflexivity. Qed.

End ValidateFacts.

(** ** Entropy *)

Module EntropyFacts.

Import AnalyzeTrainingDiversity Stats.

Local Open Scope R_scope.

Lemma true_div_ok (a b : R) : b <> 0 -> true_div a b = Ok (a / b).
Proof.
  intros Hb. unfold true_div. destruct (Req_dec_T b 0); [contradiction|].
  reflexivity.
Qed.

Lemma true_div_zero (a : R) : true_div a 0 = Raise ZeroDivisionError.
Proof.
  unfold true_div. destruct (Req_dec_T 0 0) as [_|H]; [reflexivity|].
  exfalso. apply H. reflexivity.
Qed.

Lemma fold_entropy_step (total : nat) (l : list nat) (acc : R) :
  total <> 0%nat ->
  fold_left (entropy_step total) l (Ok acc) =
  Ok (acc - Rsum (map (fun c => INR c / INR total * log2 (INR c / INR total))
                      (filter (fun c => (0 <? c)%nat) l))).
Proof.
  intros Ht. revert acc. induction l as [|c l IH]; intros acc;
    cbn [fold_left filter].
  - simpl. f_equal. ring.
  - assert (E : entropy_step total (Ok acc) c =
                if (0 <? c)%nat
                then Ok (acc - INR c / INR total * log2 (INR c / INR total))
                else Ok acc).
    { unfold entropy_step. cbn [bind]. destruct (0 <? c)%nat; [|reflexivity].
      rewrite true_div_ok by (apply not_0_INR; exact Ht). reflexivity. }
    rewrite E. destruct (0 <? c)%nat; rewrite IH; [|reflexivity].
    f_equal. unfold Rsum. cbn [map fold_right]. ring.
Qed.

(** C2.  [shannon_entropy] returns 0 on a distribution whose counts sum to
    zero, and otherwise minus the sum of [(c/T) * log2 (c/T)] over the counts
    [c > 0], [T] being the sum of all counts. *)
Theorem shannon_entropy_formula (K : Type) (counts : Counter K) :
  (list_sum (values counts) = 0%nat -> shannon_entropy counts = Ok 0) /\
  (list_sum (values counts) <> 0%nat ->
   shannon_entropy counts = Ok (entropy_of (values counts))).
Proof.
  unfold shannon_entropy. split; intros H.
  - rewrite H. reflexivity.
  - destruct (Nat.eqb_spec (list_sum (values counts)) 0); [contradiction|].
    rewrite fold_entropy_step by exact H. unfold entropy_of. f_equal. ring.
Qed.

(** *** The sign of the entropy *)

Lemma ln_2_pos : 0 < ln 2.
Proof. pose proof ln_lt_2. lra. Qed.

Lemma ln_le_sub1 (y : R) : 0 < y -> ln y <= y - 1.
Proof.
  intros Hy. pose proof (exp_ineq1_le (y - 1)) as H.
  replace (1 + (y - 1)) with y in H by ring.
  rewrite <- (ln_exp (y - 1)). destruct H as [H|H].
  - left. apply ln_increasing; assumption.
  - right. rewrite <- H. reflexivity.
Qed.

Lemma ln_nonpos (p : R) : 0 < p -> p <= 1 -> ln p <= 0.
Proof. intros H0 H1. pose proof (ln_le_sub1 p H0). lra. Qed.

Lemma Rsum_nonpos (l : list R) : Forall (fun x => x <= 0) l -> Rsum l <= 0.
Proof. induction 1 as [|x l Hx _ IH]; simpl; lra. Qed.

Lemma in_le_list_sum (c : nat) (l : list nat) :
  In c l -> (c <= list_sum l)%nat.
Proof.
  induction l as [|x l IH]; simpl; [tauto|].
  intros [->|H]; [lia|]. specialize (IH H). lia.
Qed.

Lemma list_sum_positive_part (l : list nat) :
  list_sum (filter (fun c => (0 <? c)%nat) l) = list_sum l.
Proof.
  induction l as [|x l IH]; simpl; [reflexivity|].
  destruct (Nat.ltb_spec 0 x); simpl; lia.
Qed.

Lemma entropy_of_nonneg (l : list nat) :
  list_sum l <> 0%nat -> 0 <= entropy_of l.
Proof.
  intros Ht. unfold entropy_of.
  assert (HT : 0 < INR (list_sum l)) by (apply lt_0_INR; lia).
  enough (Rsum (map (fun c => INR c / INR (list_sum l) *
                              log2 (INR c / INR (list_sum l)))
                    (filter (fun c => (0 <? c)%nat) l)) <= 0) by lra.
  apply Rsum_nonpos. rewrite Forall_map, Forall_forall.
  intros c Hin. apply filter_In in Hin. destruct Hin as [Hin Hpos].
  apply Nat.ltb_lt in Hpos.
  assert (Hc : 0 < INR c) by (apply lt_0_INR; exact Hpos).
  assert (Hle : INR c <= INR (list_sum l)).
  { apply le_INR, in_le_list_sum, Hin. }
  assert (Hp0 : 0 < INR c / INR (list_sum l)).
  { apply Rdiv_lt_0_compat; assumption. }
  assert (Hp1 : INR c / INR (list_sum l) <= 1).
  { apply (Rmult_le_reg_r (INR (list_sum l))); [exact HT|].
    unfold Rdiv. rewrite Rmult_assoc, Rinv_l by lra. lra. }
  pose proof (ln_nonpos _ Hp0 Hp1) as Hln. pose proof ln_2_pos as H2.
  unfold log2.
  set (p := INR c / INR (list_sum l)) in *.
  assert (Hq : ln p / ln 2 * ln 2 = ln p) by (field; lra).
  assert (ln p / ln 2 <= 0) by nra.
  nra.
Qed.

(** What [shannon_entropy] returns: it never raises, and the value is not
    negative. *)
Lemma shannon_entropy_value (K : Type) (counts : Counter K) :
  exists e, shannon_entropy counts = Ok e /\ 0 <= e.
Proof.
  unfold shannon_entropy.
  destruct (Nat.eqb_spec (list_sum (values counts)) 0) as [E|E].
  - exists 0. split; [reflexivity | lra].
  - exists (entropy_of (values counts)). split.
    { rewrite fold_entropy_step by exact E. unfold entropy_of. f_equal. ring. }
    apply entropy_of_nonneg, E.
Qed.

End EntropyFacts.

(** ** The analyses *)

Module AnalysisFacts.

Import AnalyzeTrainingDiversity Stats Invariants EntropyFacts.

Local Open Scope R_scope.

Lemma percent_of_ratio (a b : R) :
  0 <= a -> a <= b -> 0 < b -> 0 <= a / b * 100 <= 100.
Proof.
  intros Ha Hab Hb.
  assert (H0 : 0 <= a / b).
  { unfold Rdiv. apply Rmult_le_pos; [exact Ha|].
    left. apply Rinv_0_lt_compat, Hb. }
  assert (H1 : a / b <= 1).
  { apply (Rmult_le_reg_r b); [exact Hb|].
    replace (a / b * b) with a by (field; lra). lra. }
  lra.
Qed.

(** *** Element combinations *)

Lemma analyze_element_combinations_value (items : list Entry) :
  exists r,
    analyze_element_combinations (init items) = Ok r /\
    unique_combinations r = List.length (element_combos items) /\
    coverage_percent r = INR (List.length (element_combos items)) / 28 * 100 /\
    0 <= evenness_percent r /\
    ((List.length (element_combos items) <= 1)%nat -> evenness_percent r = 0).
Proof.
  unfold analyze_element_combinations. cbn [data init].
  set (combos := element_combos items).
  rewrite true_div_ok by (apply not_0_INR; discriminate). cbn [bind].
  destruct (shannon_entropy_value _ combos) as (e & He & He0).
  rewrite He. cbn [bind].
  set (m := if nonempty combos then log2 (INR (List.length combos)) else 0).
  assert (Hev : exists ev,
            (if Rlt_dec 0 m
             then r <- true_div e m ;; Ok (r * 100)
             else Ok 0) = Ok ev /\ 0 <= ev /\
            ((List.length combos <= 1)%nat -> ev = 0)).
  { destruct (Rlt_dec 0 m) as [Hm|Hm].
    - rewrite true_div_ok by lra. cbn [bind]. eexists. split; [reflexivity|].
      split.
      + apply Rmult_le_pos; [|lra]. unfold Rdiv.
        apply Rmult_le_pos; [exact He0|]. left. apply Rinv_0_lt_compat, Hm.
      + intros Hle. exfalso. subst m.
        destruct combos as [|kc [|kc' rest]];
          cbn [nonempty Datatypes.length] in Hm, Hle; [lra | | lia].
        change (INR 1) with 1 in Hm. unfold log2, Rdiv in Hm.
        rewrite ln_1, Rmult_0_l in Hm. lra.
    - exists 0. split; [reflexivity|]. split; [lra | reflexivity]. }
  destruct Hev as (ev & -> & Hev). cbn [bind].
  assert (Hrest : exists lo hi avg,
            (if nonempty combos then py_min (values combos) else Ok 0%nat) = Ok lo /\
            (if nonempty combos then py_max (values combos) else Ok 0%nat) = Ok hi /\
            (if nonempty combos
             then true_div (INR (list_sum (values combos)))
                           (INR (List.length combos))
             else Ok 0) = Ok avg).
  { destruct combos as [|kc rest] eqn:Ec.
    - exists 0%nat, 0%nat, 0. repeat split.
    - cbn [nonempty]. rewrite true_div_ok by (apply not_0_INR; discriminate).
      do 3 eexists. repeat split. }
  destruct Hrest as (lo & hi & avg & -> & -> & ->). cbn [bind].
  eexists. split; [reflexivity|].
  cbn [unique_combinations coverage_percent evenness_percent].
  split; [reflexivity|]. split; [|exact Hev].
  rewrite (INR_IZR_INZ 28). reflexivity.
Qed.

(** *** Actions *)

Lemma tally_entry_sequences (items : list Entry) :
  forall acc,
    List.length (snd (fold_left tally_entry items acc)) =
    (List.length (snd acc) + List.length items)%nat.
Proof.
  induction items as [|entry items IH]; intros acc; simpl; [lia|].
  rewrite IH. unfold tally_entry. cbn [snd]. rewrite length_app. simpl. lia.
Qed.

Lemma distinct_length (K : Type) (eqb : K -> K -> bool) (l : list K) :
  (List.length (distinct eqb l) <= List.length l)%nat.
Proof.
  induction l as [|x l IH]; simpl; [lia|].
  pose proof (filter_length_le (fun y => negb (eqb x y)) (distinct eqb l)).
  lia.
Qed.

Lemma analyze_actions_value (items : list Entry) :
  items <> [] ->
  exists r,
    analyze_actions (init items) = Ok r /\
    0 <= sequence_diversity_percent r <= 100.
Proof.
  intros Hne. unfold analyze_actions. cbn [data n init].
  set (tallies := fold_left tally_entry items ([], [])).
  destruct (shannon_entropy_value _ (count_all tuple_eqb (snd tallies)))
    as (e1 & -> & _). cbn [bind].
  destruct (shannon_entropy_value _ (fst tallies)) as (e2 & -> & _).
  cbn [bind].
  assert (Hlen : (0 < List.length items)%nat).
  { destruct items; [contradiction | simpl; lia]. }
  rewrite true_div_ok by (apply not_0_INR; lia). cbn [bind].
  eexists. split; [reflexivity|]. cbn [sequence_diversity_percent].
  apply percent_of_ratio.
  - apply pos_INR.
  - apply le_INR.
    pose proof (distinct_length _ tuple_eqb (snd tallies)) as Hd.
    pose proof (tally_entry_sequences items ([], [])) as Hs.
    fold tallies in Hs. simpl in Hs. lia.
  - apply lt_0_INR, Hlen.
Qed.

Lemma analyze_actions_empty :
  analyze_actions (init []) = Raise ZeroDivisionError.
Proof.
  unfold analyze_actions. cbn [data n init fold_left fst snd].
  destruct (shannon_entropy_value _ (count_all tuple_eqb [])) as (e1 & -> & _).
  cbn [bind].
  destruct (shannon_entropy_value _ (@nil (string * nat))) as (e2 & -> & _).
  cbn [bind]. change (INR (List.length (@nil Entry))) with 0.
  rewrite true_div_zero. reflexivity.
Qed.

(** *** Melee attacks *)

Lemma fold_left_flat_map (A B C : Type) (f : A -> B -> A) (g : C -> list B)
  (l : list C) (a : A) :
  fold_left (fun acc x => fold_left f (g x) acc) l a =
  fold_left f (flat_map g l) a.
Proof.
  revert a. induction l as [|x l IH]; intros a; simpl; [reflexivity|].
  rewrite fold_left_app. apply IH.
Qed.

Lemma fold_left_pointwise (A B : Type) (f g : A -> B -> A) (l : list B) :
  (forall a x, f a x = g a x) ->
  forall a, fold_left f l a = fold_left g l a.
Proof.
  intros H. induction l as [|x l IH]; intros a; simpl; [reflexivity|].
  rewrite H. apply IH.
Qed.

Lemma melee_counters_flat (items : list Entry) :
  melee_counters items =
  fold_left tally_melee (top_level_scripts items) ([], [], []).
Proof.
  unfold melee_counters, top_level_scripts.
  rewrite <- (fold_left_flat_map _ _ _ tally_melee
                (fun entry => flat_map script (effects (ability entry)))).
  apply fold_left_pointwise. intros acc entry.
  apply (fold_left_flat_map _ _ _ tally_melee script).
Qed.

Lemma tally_melee_fold (l : list ScriptNode) :
  forall s m c,
    fold_left tally_melee l (s, m, c) =
    (fold_left (fun counts key => incr value_eqb key counts)
       (map shape_of (filter is_melee l)) s,
     fold_left (fun counts key => incr value_eqb key counts)
       (map movement_of (filter is_melee l)) m,
     fold_left (fun counts key => incr pair_eqb key counts)
       (map (fun node => (shape_of node, movement_of node)) (filter is_melee l))
       c).
Proof.
  induction l as [|node l IH]; intros s m c; [reflexivity|].
  cbn [fold_left filter].
  assert (E : tally_melee (s, m, c) node =
              if is_melee node
              then (incr value_eqb (shape_of node) s,
                    incr value_eqb (movement_of node) m,
                    incr pair_eqb (shape_of node, movement_of node) c)
              else (s, m, c)) by reflexivity.
  rewrite E. destruct (is_melee node); rewrite IH; reflexivity.
Qed.

Lemma incr_not_nil (K : Type) (eqb : K -> K -> bool) (key : K)
  (counts : Counter K) : incr eqb key counts <> [].
Proof.
  destruct counts as [|[k c] rest]; simpl; [discriminate|].
  destruct (eqb key k); discriminate.
Qed.

Lemma tally_not_nil (K : Type) (eqb : K -> K -> bool) (l : list K) :
  forall counts,
    counts <> [] ->
    fold_left (fun counts key => incr eqb key counts) l counts <> [].
Proof.
  induction l as [|x l IH]; intros counts H; simpl; [exact H|].
  apply IH, incr_not_nil.
Qed.

Lemma count_all_nil_iff (K : Type) (eqb : K -> K -> bool) (l : list K) :
  count_all eqb l = [] <-> l = [].
Proof.
  split; [|intros ->; reflexivity].
  destruct l as [|x l]; [reflexivity|]. unfold count_all. cbn [fold_left].
  intros H. exfalso. revert H. apply tally_not_nil, incr_not_nil.
Qed.

Lemma analyze_melee_attacks_cases (items : list Entry) :
  let melee := filter is_melee (top_level_scripts items) in
  (melee = [] -> analyze_melee_attacks (init items) = Ok None) /\
  (melee <> [] ->
   exists se me,
     shannon_entropy (count_all value_eqb (map shape_of melee)) = Ok se /\
     shannon_entropy (count_all value_eqb (map movement_of melee)) = Ok me /\
     analyze_melee_attacks (init items) =
     Ok (Some (mkMeleeAnalysis
                 (count_all value_eqb (map shape_of melee))
                 (count_all value_eqb (map movement_of melee))
                 (count_all pair_eqb
                    (map (fun node => (shape_of node, movement_of node)) melee))
                 se me))).
Proof.
  intros melee. unfold analyze_melee_attacks. cbn [data init].
  rewrite melee_counters_flat, tally_melee_fold. fold melee.
  fold (count_all value_eqb (map shape_of melee)).
  fold (count_all value_eqb (map movement_of melee)).
  fold (count_all pair_eqb
          (map (fun node => (shape_of node, movement_of node)) melee)).
  split.
  - intros ->. reflexivity.
  - intros Hne.
    destruct (count_all value_eqb (map shape_of melee)) as [|kc rest] eqn:E.
    + apply count_all_nil_iff in E. apply map_eq_nil in E. contradiction.
    + rewrite <- E. cbn [nonempty negb].
      destruct (count_all value_eqb (map shape_of melee)); [discriminate|].
      cbn [nonempty negb].
      destruct (shannon_entropy_value _
                  (count_all value_eqb (map movement_of melee)))
        as (me & Hme & _).
      injection E as -> ->.
      destruct (shannon_entropy_value _ (kc :: rest)) as (se & Hse & _).
      exists se, me. rewrite Hse, Hme. repeat split.
Qed.

(** *** Status effects and complexity *)

Lemma analyze_status_effects_value (items : list Entry) :
  exists r, analyze_status_effects (init items) = Ok r.
Proof.
  unfold analyze_status_effects.
  destruct (shannon_entropy_value _ (status_counter (data (init items))))
    as (e & -> & _).
  eexists. reflexivity.
Qed.

Lemma complexity_lists_length (items : list Entry) :
  List.length (fst (complexity_lists items)) = List.length items /\
  List.length (snd (complexity_lists items)) = List.length items.
Proof.
  unfold complexity_lists.
  enough (forall acc : list nat * list nat,
            let r := fold_left
                       (fun acc entry =>
                          let c := entry_complexity entry in
                          (fst acc ++ [fst c], snd acc ++ [snd c]))
                       items acc in
            List.length (fst r) = (List.length (fst acc) + List.length items)%nat /\
            List.length (snd r) = (List.length (snd acc) + List.length items)%nat)
    as H by (apply (H ([], []))).
  induction items as [|entry items IH]; intros acc; simpl; [lia|].
  destruct (IH (fst acc ++ [fst (entry_complexity entry)],
                snd acc ++ [snd (entry_complexity entry)])) as [H1 H2].
  cbn [fst snd] in H1, H2. rewrite !length_app in H1, H2. simpl in H1, H2.
  split; [rewrite H1 | rewrite H2]; lia.
Qed.

Lemma py_min_ok (l : list nat) : l <> [] -> exists m, py_min l = Ok m.
Proof. destruct l; [contradiction|]. intros _. eexists. reflexivity. Qed.

Lemma py_max_ok (l : list nat) : l <> [] -> exists m, py_max l = Ok m.
Proof. destruct l; [contradiction|]. intros _. eexists. reflexivity. Qed.

Lemma analyze_complexity_value (items : list Entry) :
  items <> [] ->
  exists r, analyze_complexity (init items) = Ok r /\
            0 <= complexity_entropy r.
Proof.
  intros Hne. unfold analyze_complexity. cbn [data init].
  destruct (complexity_lists_length items) as [H1 H2].
  assert (Hlen : (0 < List.length items)%nat).
  { destruct items; [contradiction | simpl; lia]. }
  set (lengths := fst (complexity_lists items)) in *.
  set (depths := snd (complexity_lists items)) in *.
  assert (Hl : lengths <> []) by (intros E; rewrite E in H1; simpl in H1; lia).
  assert (Hd : depths <> []) by (intros E; rewrite E in H2; simpl in H2; lia).
  rewrite true_div_ok by (apply not_0_INR; lia). cbn [bind].
  destruct (py_min_ok lengths Hl) as (a & ->).
  destruct (py_max_ok lengths Hl) as (b & ->). cbn [bind].
  rewrite true_div_ok by (apply not_0_INR; lia). cbn [bind].
  destruct (py_max_ok depths Hd) as (c & ->). cbn [bind].
  destruct (shannon_entropy_value _ (count_all Nat.eqb lengths))
    as (e & -> & He).
  cbn [bind]. eexists. split; [reflexivity | exact He].
Qed.

Lemma analyze_complexity_empty :
  analyze_complexity (init []) = Raise ZeroDivisionError.
Proof.
  unfold analyze_complexity. cbn [data init complexity_lists fold_left fst snd].
  change (INR (List.length (@nil nat))) with 0.
  rewrite true_div_zero. reflexivity.
Qed.

(** *** The composite score *)

Lemma log2_5_pos : 0 < log2 5.
Proof.
  unfold log2, Rdiv. apply Rmult_lt_0_compat.
  - rewrite <- ln_1. apply ln_increasing; lra.
  - apply Rinv_0_lt_compat, ln_2_pos.
Qed.

Lemma score_value (analyses : Analyses) :
  calculate_overall_diversity_score analyses =
  Ok ((coverage_percent (elements analyses)
       + evenness_percent (elements analyses)
       + sequence_diversity_percent (actions analyses)
       + Rmin (complexity_entropy (complexity analyses) / log2 5 * 100) 100
       + Rmin (INR (unique_statuses (status_effects analyses)) / 10 * 100) 100)
      / 5).
Proof.
  unfold calculate_overall_diversity_score.
  rewrite true_div_ok by (pose proof log2_5_pos; lra). cbn [bind].
  rewrite true_div_ok by lra. cbn [bind app].
  rewrite true_div_ok by (apply not_0_INR; discriminate).
  f_equal. unfold sum_scores. cbn [fold_left List.length].
  rewrite (INR_IZR_INZ 5). cbn [Z.of_nat Pos.of_succ_nat Pos.succ].
  f_equal. ring.
Qed.

Lemma clamp_bounds (x : R) : 0 <= x -> 0 <= Rmin x 100 <= 100.
Proof. intros Hx. unfold Rmin. destruct (Rle_dec x 100); lra. Qed.

(** *** The keys of a counter are the distinct items counted *)

Section CounterKeys.

Context {K : Type} (eqb : K -> K -> bool).

Hypothesis eqb_eq : forall x y, eqb x y = true <-> x = y.

Lemma eqb_refl (x : K) : eqb x x = true.
Proof. apply eqb_eq. reflexivity. Qed.

Lemma eqb_sym (x y : K) : eqb x y = eqb y x.
Proof.
  destruct (eqb x y) eqn:E1, (eqb y x) eqn:E2; try reflexivity.
  - apply eqb_eq in E1. subst. rewrite eqb_refl in E2. discriminate.
  - apply eqb_eq in E2. subst. rewrite eqb_refl in E1. discriminate.
Qed.

Lemma keys_incr (x : K) (counts : Counter K) :
  map fst (incr eqb x counts) =
  if mem eqb x (map fst counts) then map fst counts
  else map fst counts ++ [x].
Proof.
  unfold mem. induction counts as [|[k c] rest IH]; simpl; [reflexivity|].
  destruct (eqb x k); simpl; [reflexivity|]. rewrite IH.
  destruct (existsb (eqb x) (map fst rest)); reflexivity.
Qed.

Lemma filter_filter (P Q : K -> bool) (l : list K) :
  filter P (filter Q l) = filter (fun y => Q y && P y) l.
Proof.
  induction l as [|y l IH]; simpl; [reflexivity|].
  destruct (Q y); simpl; [destruct (P y)|]; rewrite IH; reflexivity.
Qed.

Lemma keys_tally (l : list K) :
  forall counts,
    map fst (fold_left (fun counts key => incr eqb key counts) l counts) =
    map fst counts ++
    filter (fun y => negb (mem eqb y (map fst counts))) (distinct eqb l).
Proof.
  induction l as [|x l IH]; intros counts; cbn [fold_left distinct].
  - simpl. rewrite app_nil_r. reflexivity.
  - rewrite IH, keys_incr. cbn [filter]. destruct (mem eqb x (map fst counts)) eqn:Hx.
    + cbn [negb]. f_equal. rewrite filter_filter. apply filter_ext.
      intros y. destruct (eqb x y) eqn:E; [|reflexivity].
      apply eqb_eq in E. subst y. rewrite Hx. reflexivity.
    + cbn [negb]. rewrite <- app_assoc. cbn [app]. do 2 f_equal.
      rewrite filter_filter. apply filter_ext. intros y.
      unfold mem. rewrite existsb_app. cbn [existsb].
      rewrite orb_false_r, negb_orb, (eqb_sym y x). apply andb_comm.
Qed.

Lemma keys_count_all (l : list K) :
  map fst (count_all eqb l) = distinct eqb l.
Proof.
  unfold count_all. rewrite keys_tally. cbn [map app].
  induction (distinct eqb l) as [|y d IH]; [reflexivity|].
  cbn [filter]. change (mem eqb y []) with false. cbn [negb].
  rewrite IH. reflexivity.
Qed.

End CounterKeys.

Lemma tuple_eqb_eq (a b : list string) : tuple_eqb a b = true <-> a = b.
Proof.
  revert b. induction a as [|x a IH]; intros [|y b]; simpl;
    try (split; [discriminate | discriminate]); [tauto|].
  rewrite andb_true_iff, String.eqb_eq, IH. split.
  - intros [-> ->]. reflexivity.
  - intros [= -> ->]. split; reflexivity.
Qed.

Lemma fold_left_map (A B C : Type) (f : A -> B -> A) (g : C -> B)
  (l : list C) (a : A) :
  fold_left f (map g l) a = fold_left (fun a x => f a (g x)) l a.
Proof.
  revert a. induction l as [|x l IH]; intros a; simpl; [reflexivity|].
  apply IH.
Qed.

(** The keys of the counter of [analyze_element_combinations] are the
    distinct sorted primitive pairs observed. *)
Lemma element_combos_keys (items : list Entry) :
  map fst (element_combos items) = observed_pairs items.
Proof.
  unfold element_combos, observed_pairs.
  rewrite <- (keys_count_all tuple_eqb tuple_eqb_eq). unfold count_all.
  rewrite fold_left_map. reflexivity.
Qed.

Lemma element_combos_length (items : list Entry) :
  List.length (element_combos items) = List.length (observed_pairs items).
Proof. rewrite <- element_combos_keys, length_map. reflexivity. Qed.

Lemma element_combos_not_nil (items : list Entry) :
  items <> [] -> element_combos items <> [].
Proof.
  unfold element_combos. destruct items as [|entry items]; [contradiction|].
  intros _. cbn [fold_left].
  generalize (incr_not_nil _ tuple_eqb (sorted (primitives (ability entry))) []).
  generalize (incr tuple_eqb (sorted (primitives (ability entry))) []).
  induction items as [|entry' items IH]; intros acc Hacc; cbn [fold_left];
    [exact Hacc|].
  apply IH, incr_not_nil.
Qed.

(** The score of data that is not empty: the mean of the coverage, the
    evenness and three numbers between 0 and 100. *)
Lemma overall_score_value (items : list Entry) :
  items <> [] ->
  exists el sq cx st,
    analyze_element_combinations (init items) = Ok el /\
    overall_score (init items) =
    Ok ((coverage_percent el + evenness_percent el + sq + cx + st) / 5) /\
    coverage_percent el =
      INR (List.length (element_combos items)) / 28 * 100 /\
    0 <= evenness_percent el /\
    0 <= sq <= 100 /\ 0 <= cx <= 100 /\ 0 <= st <= 100.
Proof.
  intros Hne. unfold overall_score.
  destruct (analyze_element_combinations_value items)
    as (el & Hel & _ & Hcov & Hev & _).
  rewrite Hel.
  destruct (analyze_actions_value items Hne) as (ac & -> & Hsq).
  destruct (analyze_status_effects_value items) as (sa & ->).
  destruct (analyze_complexity_value items Hne) as (ca & -> & Hce).
  cbn [bind]. rewrite score_value.
  cbn [elements actions status_effects complexity].
  exists el, (sequence_diversity_percent ac),
    (Rmin (complexity_entropy ca / log2 5 * 100) 100),
    (Rmin (INR (unique_statuses sa) / 10 * 100) 100).
  split; [reflexivity|]. split; [reflexivity|]. split; [exact Hcov|].
  split; [exact Hev|]. split; [exact Hsq|]. split.
  - apply clamp_bounds. pose proof log2_5_pos as H5.
    apply Rmult_le_pos; [|lra]. unfold Rdiv. apply Rmult_le_pos; [exact Hce|].
    left. apply Rinv_0_lt_compat, H5.
  - apply clamp_bounds. pose proof (pos_INR (unique_statuses sa)). lra.
Qed.

(** On data that is not empty the coverage is positive. *)
Lemma coverage_positive (items : list Entry) :
  items <> [] -> 0 < INR (List.length (element_combos items)) / 28 * 100.
Proof.
  intros Hne. pose proof (element_combos_not_nil items Hne) as Hc.
  assert (H : 1 <= INR (List.length (element_combos items))).
  { change 1 with (INR 1). apply le_INR.
    destruct (element_combos items); [contradiction | simpl; lia]. }
  lra.
Qed.

Lemma overall_score_empty : overall_score (init []) = Raise ZeroDivisionError.
Proof.
  unfold overall_score.
  destruct (analyze_element_combinations_value []) as (el & -> & _).
  cbn [bind]. rewrite analyze_actions_empty. reflexivity.
Qed.

End AnalysisFacts.

(** ** The properties of the analyses *)

Module AnalysisProperties.

Import AnalyzeTrainingDiversity Stats EntropyFacts AnalysisFacts.

Local Open Scope R_scope.

(** X25.  What [coverage_percent] is on any data: 100 times the number of
    distinct sorted primitive pairs observed, over 28.  It is never
    negative, and it is at most 100 exactly when at most 28 pairs are
    observed. *)
Lemma coverage_percent_of_observed_pairs (items : list Entry) :
  exists r,
    analyze_element_combinations (init items) = Ok r /\
    coverage_percent r = 100 * INR (List.length (observed_pairs items)) / 28 /\
    0 <= coverage_percent r /\
    (coverage_percent r <= 100 <->
     (List.length (observed_pairs items) <= 28)%nat).
Proof.
  destruct (analyze_element_combinations_value items) as (r & Hr & _ & Hc & _).
  rewrite element_combos_length in Hc.
  pose proof (pos_INR (List.length (observed_pairs items))) as Hpos.
  exists r. split; [exact Hr|]. split; [rewrite Hc; field|].
  split; [rewrite Hc; lra|]. rewrite Hc. split.
  - intros H. apply INR_le. rewrite (INR_IZR_INZ 28).
    cbn [Z.of_nat Pos.of_succ_nat Pos.succ]. lra.
  - intros H. apply le_INR in H. rewrite (INR_IZR_INZ 28) in H.
    cbn [Z.of_nat Pos.of_succ_nat Pos.succ] in H. lra.
Qed.

(** C3, at a data set the analyzer can be given: one record for each
    ordered pair of eight elements.  36 distinct sorted pairs are observed
    (the 28 pairs of two different elements and the 8 doubled ones), and
    [coverage_percent] is [36 / 28 * 100], above 100. *)
Theorem coverage_above_100_on_all_pairs :
  List.length (observed_pairs Samples.all_pairs) = 36%nat /\
  exists r,
    analyze_element_combinations (init Samples.all_pairs) = Ok r /\
    unique_combinations r = 36%nat /\
    coverage_percent r = 36 / 28 * 100 /\
    100 < coverage_percent r.
Proof.
  split; [vm_compute; reflexivity|].
  destruct (analyze_element_combinations_value Samples.all_pairs)
    as (r & Hr & Hu & Hc & _).
  assert (E : List.length (element_combos Samples.all_pairs) = 36%nat)
    by (vm_compute; reflexivity).
  rewrite E in Hu, Hc. rewrite (INR_IZR_INZ 36) in Hc.
  cbn [Z.of_nat Pos.of_succ_nat Pos.succ] in Hc.
  exists r. repeat split; try assumption. rewrite Hc. lra.
Qed.

(** C10.  On data that is not empty, [analyze_actions], [analyze_complexity]
    and [analyze_element_combinations] return: no division in them meets a
    zero divisor.  On the empty data, [analyze_actions] and
    [analyze_complexity] raise [ZeroDivisionError]. *)
Theorem analyses_divide_safely_iff_nonempty :
  (forall items, items <> [] ->
     (exists r, analyze_actions (init items) = Ok r) /\
     (exists r, analyze_complexity (init items) = Ok r) /\
     (exists r, analyze_element_combinations (init items) = Ok r)) /\
  analyze_actions (init []) = Raise ZeroDivisionError /\
  analyze_complexity (init []) = Raise ZeroDivisionError.
Proof.
  split; [|split; [apply analyze_actions_empty | apply analyze_complexity_empty]].
  intros items Hne. repeat split.
  - destruct (analyze_actions_value items Hne) as (r & H & _). exists r. exact H.
  - destruct (analyze_complexity_value items Hne) as (r & H & _).
    exists r. exact H.
  - destruct (analyze_element_combinations_value items) as (r & H & _).
    exists r. exact H.
Qed.

(** C7, as the code has it.  [analyze_melee_attacks] never raises.  It
    returns [None] exactly when no script node standing directly in an
    effect's [script] list has the action [spawn_melee]; nodes under [on_hit]
    are not looked at.  Otherwise it returns the tallies of [args.shape]
    (default "unknown"), of [args.movement] (default "stationary") and of
    their pairs over those top-level nodes, with the two entropies. *)
Theorem melee_analysis_of_top_level_nodes (items : list Entry) :
  let melee := filter is_melee (top_level_scripts items) in
  (analyze_melee_attacks (init items) = Ok None <-> melee = []) /\
  (melee <> [] ->
   exists se me,
     shannon_entropy (count_all value_eqb (map shape_of melee)) = Ok se /\
     shannon_entropy (count_all value_eqb (map movement_of melee)) = Ok me /\
     analyze_melee_attacks (init items) =
     Ok (Some (mkMeleeAnalysis
                 (count_all value_eqb (map shape_of melee))
                 (count_all value_eqb (map movement_of melee))
                 (count_all pair_eqb
                    (map (fun node => (shape_of node, movement_of node)) melee))
                 se me))).
Proof.
  intros melee.
  destruct (analyze_melee_attacks_cases items) as [Hnone Hsome].
  fold melee in Hnone, Hsome. split; [|exact Hsome].
  split; [|exact Hnone].
  intros H. destruct melee as [|node rest] eqn:E; [reflexivity|].
  destruct Hsome as (se & me & _ & _ & Hs); [discriminate|].
  rewrite Hs in H. discriminate.
Qed.

(** C7, as stated, fails on a record whose only [spawn_melee] node is under
    the [on_hit] of a [damage] node: the data set holds a [spawn_melee] node,
    and the analysis returns [None]. *)
Lemma nested_melee_is_not_seen :
  existsb is_melee (all_nodes Samples.nested_melee) = true /\
  analyze_melee_attacks (init Samples.nested_melee) = Ok None.
Proof. split; reflexivity. Qed.

(** C4, as the code has it.  [calculate_overall_diversity_score] returns the
    arithmetic mean of the five sub-scores; the mean lies between 0 and 100
    whenever the coverage, the evenness and the sequence diversity it is given
    do (the last two sub-scores are clamped).  For data that is not empty the
    score is computed and positive, and it is at most 100 when the coverage
    and the evenness of the element analysis are at most 100. *)
Theorem overall_score_is_mean_and_bounded :
  (forall analyses,
     calculate_overall_diversity_score analyses =
     Ok ((coverage_percent (elements analyses)
          + evenness_percent (elements analyses)
          + sequence_diversity_percent (actions analyses)
          + Rmin (complexity_entropy (complexity analyses) / log2 5 * 100) 100
          + Rmin (INR (unique_statuses (status_effects analyses)) / 10 * 100)
                 100)
         / 5)) /\
  (forall analyses,
     0 <= coverage_percent (elements analyses) <= 100 ->
     0 <= evenness_percent (elements analyses) <= 100 ->
     0 <= sequence_diversity_percent (actions analyses) <= 100 ->
     0 <= complexity_entropy (complexity analyses) ->
     exists score,
       calculate_overall_diversity_score analyses = Ok score /\
       0 <= score <= 100) /\
  (forall items,
     items <> [] ->
     exists el score,
       analyze_element_combinations (init items) = Ok el /\
       overall_score (init items) = Ok score /\
       0 < score /\
       (coverage_percent el <= 100 -> evenness_percent el <= 100 ->
        score <= 100)).
Proof.
  split; [exact score_value|]. split.
  - intros analyses Hcov Hev Hsq Hce. rewrite score_value.
    eexists. split; [reflexivity|].
    assert (Hcx : 0 <= Rmin (complexity_entropy (complexity analyses)
                             / log2 5 * 100) 100 <= 100).
    { apply clamp_bounds. pose proof log2_5_pos as H5.
      apply Rmult_le_pos; [|lra]. unfold Rdiv.
      apply Rmult_le_pos; [exact Hce|]. left. apply Rinv_0_lt_compat, H5. }
    assert (Hst : 0 <= Rmin (INR (unique_statuses (status_effects analyses))
                             / 10 * 100) 100 <= 100).
    { apply clamp_bounds.
      pose proof (pos_INR (unique_statuses (status_effects analyses))). lra. }
    lra.
  - intros items Hne.
    destruct (overall_score_value items Hne)
      as (el & sq & cx & st & Hel & Hs & Hcov & Hev & Hsq & Hcx & Hst).
    pose proof (coverage_positive items Hne) as Hpos. rewrite <- Hcov in Hpos.
    exists el. eexists. split; [exact Hel|]. split; [exact Hs|].
    split; [lra|]. intros H1 H2. lra.
Qed.

(** C4, as stated, fails on the empty data, for which no score is computed
    ([analyze_actions] raises), and on 141 records with a primitive pair
    each, for which the score is above 100. *)
Lemma score_missing_or_above_100 :
  overall_score (init []) = Raise ZeroDivisionError /\
  List.length (observed_pairs Samples.many_pairs) = 141%nat /\
  exists score,
    overall_score (init Samples.many_pairs) = Ok score /\ 100 < score.
Proof.
  split; [exact overall_score_empty|]. split; [vm_compute; reflexivity|].
  destruct (overall_score_value Samples.many_pairs)
    as (el & sq & cx & st & _ & Hs & Hcov & Hev & Hsq & Hcx & Hst);
    [discriminate|].
  assert (E : List.length (element_combos Samples.many_pairs) = 141%nat)
    by (vm_compute; reflexivity).
  rewrite E, (INR_IZR_INZ 141) in Hcov.
  cbn [Z.of_nat Pos.of_succ_nat Pos.succ] in Hcov.
  eexists. split; [exact Hs|]. lra.
Qed.

(** *** The theorems at sample data *)

(** C4 at a data set of one record, with one primitive pair: the coverage
    is [1 / 28 * 100] and the evenness 0. *)
Lemma overall_score_is_mean_and_bounded_witness :
  exists score,
    overall_score (init Samples.two_swings) = Ok score /\ 0 < score <= 100.
Proof.
  destruct (proj2 (proj2 overall_score_is_mean_and_bounded) Samples.two_swings)
    as (el & score & Hel & Hs & Hpos & Hle); [discriminate|].
  destruct (analyze_element_combinations_value Samples.two_swings)
    as (el' & Hel' & _ & Hcov & _ & Hev).
  rewrite Hel' in Hel. injection Hel as <-.
  assert (E : List.length (element_combos Samples.two_swings) = 1%nat)
    by reflexivity.
  rewrite E in Hcov, Hev. change (INR 1) with 1 in Hcov.
  exists score. split; [exact Hs|]. split; [exact Hpos|].
  apply Hle; [rewrite Hcov; lra | rewrite Hev; [lra | lia]].
Defined.

(** C10 at a data set of one record. *)
Lemma analyses_divide_safely_witness :
  (exists r, analyze_actions (init Samples.two_swings) = Ok r) /\
  (exists r, analyze_complexity (init Samples.two_swings) = Ok r) /\
  (exists r, analyze_element_combinations (init Samples.two_swings) = Ok r).
Proof.
  apply (proj1 analyses_divide_safely_iff_nonempty Samples.two_swings).
  discriminate.
Defined.

(** C7 at a record with two top-level [spawn_melee] nodes, the second
    without [args]. *)
Lemma melee_analysis_witness :
  exists m,
    analyze_melee_attacks (init Samples.two_swings) = Ok (Some m) /\
    shapes m = [(VStr "arc", 1%nat); (VStr "unknown", 1%nat)] /\
    movements m = [(VStr "dash", 1%nat); (VStr "stationary", 1%nat)] /\
    shape_movement_combos m =
      [((VStr "arc", VStr "dash"), 1%nat);
       ((VStr "unknown", VStr "stationary"), 1%nat)].
Proof.
  destruct (proj2 (melee_analysis_of_top_level_nodes Samples.two_swings))
    as (se & me & _ & _ & H); [discriminate|].
  eexists. split; [exact H|]. repeat split.
Defined.

(** C2 at the distribution of scenario C. *)
Lemma shannon_entropy_formula_witness :
  shannon_entropy [("A"%string, 10%nat); ("B"%string, 10%nat)] =
  Ok (entropy_of [10%nat; 10%nat]).
Proof.
  apply (proj2 (shannon_entropy_formula string
                  [("A"%string, 10%nat); ("B"%string, 10%nat)])).
  discriminate.
Defined.

(** Scenario C of the specification: two keys with 10 samples each carry
    one bit. *)
Example entropy_of_even_split : entropy_of [10%nat; 10%nat] = 1.
Proof.
  unfold entropy_of. cbn [filter Nat.ltb Nat.leb map list_sum fold_right Rsum].
  replace (INR 10 / INR (10 + (10 + 0))) with (/ 2).
  - unfold log2. rewrite ln_Rinv by lra. field. pose proof ln_2_pos. lra.
  - rewrite (INR_IZR_INZ 10), (INR_IZR_INZ (10 + (10 + 0))).
    cbn [Nat.add Z.of_nat Pos.of_succ_nat Pos.succ]. field.
Qed.

End AnalysisProperties.

(** ** Laws of the extractor *)

Module ExtractLaws.

Import FixTrainingData Spans Invariants Noise ScanFacts ExtractFacts.

Local Open Scope Z_scope.

Lemma emitted_on_rbrace (st : scan) (ch : ascii) (c : list ascii) :
  snd (scan_char st ch) = Some c -> ch = rbrace /\ in_object st = true.
Proof.
  destruct st as [d cur io]. scan_cases ch; subst; simpl;
    try (destruct (d =? 0); discriminate); try (destruct io; discriminate).
  destruct io; simpl; [|rewrite andb_false_r; discriminate].
  intros _. split; reflexivity.
Qed.

Lemma count_char_cons_zero (ch x : ascii) (text : list ascii) :
  count_char ch (x :: text) = 0%nat -> x <> ch /\ count_char ch text = 0%nat.
Proof.
  unfold count_char. cbn [filter].
  destruct (Ascii.eqb_spec ch x); cbn [Datatypes.length]; [discriminate|].
  intros H. split; [congruence | exact H].
Qed.

Lemma outside_without_lbrace (text : list ascii) :
  forall st, in_object st = false -> count_char lbrace text = 0%nat ->
             spans_from st text = [].
Proof.
  induction text as [|ch text IH]; intros st Hio Hn; [reflexivity|].
  apply count_char_cons_zero in Hn. destruct Hn as [Hch Hn].
  cbn [spans_from].
  destruct (scan_char st ch) as [st' e] eqn:E.
  assert (Hio' : in_object st' = false).
  { replace st' with (fst (scan_char st ch)) by (rewrite E; reflexivity).
    destruct st as [d cur io]. simpl in Hio. subst io.
    scan_cases ch; subst; simpl; try congruence.
    rewrite andb_false_r. reflexivity. }
  destruct e as [c|]; [|apply IH; assumption].
  destruct (emitted_on_rbrace st ch c) as [_ H]; [rewrite E; reflexivity|].
  congruence.
Qed.

Lemma anywhere_without_rbrace (text : list ascii) :
  forall st, count_char rbrace text = 0%nat -> spans_from st text = [].
Proof.
  induction text as [|ch text IH]; intros st Hn; [reflexivity|].
  apply count_char_cons_zero in Hn. destruct Hn as [Hch Hn].
  cbn [spans_from]. destruct (scan_char st ch) as [st' [c|]] eqn:E;
    [|apply IH; assumption].
  destruct (emitted_on_rbrace st ch c) as [H _]; [rewrite E; reflexivity|].
  contradiction.
Qed.

Section WithParser.

Variable json_loads : list ascii -> loaded.

(** X1.  A text in which no brace is ever closed, or none ever opened, has
    no candidate span, and nothing is extracted from it. *)
Theorem one_sided_braces_give_nothing (text : list ascii) :
  count_char rbrace text = 0%nat \/ count_char lbrace text = 0%nat ->
  candidate_spans text = [] /\ extract_json_objects json_loads text = Ok [].
Proof.
  intros H.
  assert (E : candidate_spans text = []).
  { unfold candidate_spans. destruct H as [H|H].
    - apply anywhere_without_rbrace, H.
    - apply outside_without_lbrace; [reflexivity | exact H]. }
  split; [exact E|]. rewrite extract_spans, E. reflexivity.
Qed.

Lemma outside_state (t1 : list ascii) :
  nesting t1 <= 0 -> in_object (scan_state scan_init t1) = false.
Proof.
  intros Hn.
  pose proof (scan_state_consistent scan_init t1 consistent_init) as Hc.
  pose proof (scan_state_depth scan_init t1) as Hd. simpl in Hd.
  unfold consistent in Hc.
  destruct (in_object (scan_state scan_init t1)); [lia | reflexivity].
Qed.

Lemma brace_free_is_skipped (w : list ascii) :
  forall st, in_object st = false -> brace_free w = true ->
             scan_state st w = st /\ spans_from st w = [].
Proof.
  induction w as [|ch w IH]; intros st Hio Hw; [split; reflexivity|].
  cbn [brace_free forallb] in Hw. apply andb_prop in Hw.
  destruct Hw as [Hch Hw]. apply andb_prop in Hch. destruct Hch as [Hl Hr].
  assert (E : scan_char st ch = (st, None)).
  { destruct st as [d cur io]. simpl in Hio. subst io.
    unfold scan_char, on_close, on_char, on_open.
    destruct (Ascii.eqb ch lbrace); [discriminate|].
    destruct (Ascii.eqb ch rbrace); [discriminate|]. reflexivity. }
  cbn [scan_state spans_from]. rewrite E. cbn [fst]. apply IH; assumption.
Qed.

(** X2.  Text without braces that stands outside the objects is ignored:
    where the nesting is not positive, a brace-free piece can be taken out
    of a text (or put in) without changing the candidates or the result. *)
Theorem noise_between_objects_is_ignored (t1 w t2 : list ascii) :
  nesting t1 <= 0 ->
  brace_free w = true ->
  candidate_spans (t1 ++ w ++ t2) = candidate_spans (t1 ++ t2) /\
  extract_json_objects json_loads (t1 ++ w ++ t2) =
  extract_json_objects json_loads (t1 ++ t2).
Proof.
  intros Hn Hw.
  assert (E : candidate_spans (t1 ++ w ++ t2) = candidate_spans (t1 ++ t2)).
  { unfold candidate_spans. rewrite !spans_from_app.
    destruct (brace_free_is_skipped w (scan_state scan_init t1)
                (outside_state t1 Hn) Hw) as [H1 H2].
    rewrite H1, H2. reflexivity. }
  split; [exact E|]. rewrite !extract_spans, E. reflexivity.
Qed.

(** X3.  Extraction goes through concatenation where the braces read so
    far balance: [t1] is extracted, then [t2], and the objects of
    [t1 ++ t2] are those of [t1] followed by those of [t2]; an exception
    that leaves the extraction of a part leaves that of the whole. *)
Theorem extract_of_concatenation (t1 t2 : list ascii) :
  nesting t1 = 0 ->
  extract_json_objects json_loads (t1 ++ t2) =
  (first <- extract_json_objects json_loads t1 ;;
   second <- extract_json_objects json_loads t2 ;;
   Ok (first ++ second)).
Proof.
  intros Hn. apply extract_cut. rewrite scan_state_depth, Hn. reflexivity.
Qed.


(** X5.  A closing brace read where the braces balance swallows the next
    opening brace: the text [t1 ++ "}{" ++ w] has the candidates, and the
    result, of [t1 ++ w].  An object that follows a stray closing brace is
    thus read without its outer braces. *)
Theorem stray_closing_brace_swallows_next_opening (t1 w : list ascii) :
  nesting t1 = 0 ->
  candidate_spans (t1 ++ rbrace :: lbrace :: w) = candidate_spans (t1 ++ w) /\
  extract_json_objects json_loads (t1 ++ rbrace :: lbrace :: w) =
  extract_json_objects json_loads (t1 ++ w).
Proof.
  intros Hn.
  assert (E : candidate_spans (t1 ++ rbrace :: lbrace :: w) =
              candidate_spans (t1 ++ w)).
  { unfold candidate_spans. rewrite !spans_from_app. f_equal.
    assert (Hio : in_object (scan_state scan_init t1) = false).
    { apply outside_state. lia. }
    assert (Hd : depth (scan_state scan_init t1) = 0).
    { rewrite scan_state_depth, Hn. reflexivity. }
    destruct (scan_state scan_init t1) as [d cur io]. simpl in Hio, Hd.
    subst d io. cbn [spans_from].
    change (scan_char (mkScan 0 cur false) rbrace)
      with (mkScan (-1) cur false, @None (list ascii)).
    cbn iota.
    change (scan_char (mkScan (-1) cur false) lbrace)
      with (mkScan 0 cur false, @None (list ascii)).
    reflexivity. }
  split; [exact E|]. rewrite !extract_spans, E. reflexivity.
Qed.

End WithParser.

End ExtractLaws.

(** ** Laws of the validator and of [main] *)

Module ValidateLaws.

Import FixTrainingData Spans Gate FixMain ValidateFacts ExtractFacts.

Local Open Scope nat_scope.

Lemma validate_ability_raise_table (obj : dict) :
  match validate_ability obj with
  | Raise e => e = TypeError /\ raises_in_validator obj = true
  | Ok _ => raises_in_validator obj = false
  end.
Proof.
  unfold validate_ability, raises_in_validator, crashes_validator,
    required_fields, py_in, py_getitem.
  cbn [check_required]. rewrite !dict_contains_get.
  destruct (dict_get "name" obj); [|reflexivity].
  destruct (dict_get "description" obj); [|reflexivity].
  destruct (dict_get "color" obj); [|reflexivity].
  destruct (dict_get "ability" obj) as [ability|]; [|reflexivity].
  cbn [negb bind andb].
  destruct ability as [| | | |s|l|ability]; cbn [bind];
    try (split; reflexivity).
  - destruct (str_contains "primitives" s); cbn [negb bind];
      [split|]; reflexivity.
  - destruct (existsb (is_str "primitives") l); cbn [negb bind];
      [split|]; reflexivity.
  - rewrite !dict_contains_get.
    destruct (dict_get "primitives" ability) as [prims|]; [|reflexivity].
    cbn [negb bind].
    destruct (py_len prims) as [len|e] eqn:Hlen; cbn [bind].
    + destruct (len =? 2)%nat; [|reflexivity]. cbn [negb bind].
      destruct (dict_get "effects" ability) as [effects|]; [|reflexivity].
      cbn [negb bind]. destruct (py_bool effects); [|reflexivity].
      cbn [negb bind]. destruct (dict_get "cooldown" ability); reflexivity.
    + split; [|reflexivity]. destruct prims; simpl in Hlen; congruence.
Qed.

(** X6.  [validate_ability] raises nothing but [TypeError], and it raises
    exactly when the four required keys are present and [ability] is a
    number, a boolean or null, a string or a list that contains
    "primitives", or an object whose [primitives] has no length. *)
Theorem validate_ability_raises_iff (obj : dict) :
  (forall e, validate_ability obj = Raise e -> e = TypeError) /\
  (validate_ability obj = Raise TypeError <-> raises_in_validator obj = true).
Proof.
  pose proof (validate_ability_raise_table obj) as T.
  destruct (validate_ability obj) as [v|e].
  - split; [discriminate|]. rewrite T. split; discriminate.
  - destruct T as [-> T]. split; [intros e [= <-]; reflexivity|].
    split; [intros _; exact T | reflexivity].
Qed.

Lemma validate_ability_verdict (obj : dict) (verdict : bool) (msg : string) :
  validate_ability obj = Ok (verdict, msg) -> verdict = strict_gate obj.
Proof.
  intros H. pose proof (validate_ability_table obj) as T. rewrite H in T.
  destruct verdict.
  - destruct T as [_ T]. symmetry. apply first_violation_none, T.
  - destruct (strict_gate obj) eqn:E; [|reflexivity].
    apply first_violation_none in E. rewrite E in T. discriminate.
Qed.

Lemma validate_loop_value (objects : list dict) :
  forall valid_objects invalid_count,
    validate_loop objects valid_objects invalid_count =
    if existsb raises_in_validator objects then Raise TypeError
    else Ok (valid_objects ++ filter strict_gate objects,
             (invalid_count +
              List.length (filter (fun obj => negb (strict_gate obj)) objects))%nat).
Proof.
  induction objects as [|obj rest IH]; intros valid_objects invalid_count.
  - simpl. rewrite app_nil_r, Nat.add_0_r. reflexivity.
  - cbn [validate_loop existsb filter].
    pose proof (validate_ability_raise_table obj) as T.
    destruct (validate_ability obj) as [[verdict msg]|e] eqn:Hv.
    + rewrite T. cbn [orb bind fst].
      rewrite <- (validate_ability_verdict obj verdict msg Hv).
      destruct verdict; rewrite IH; cbn [negb];
        destruct (existsb raises_in_validator rest); try reflexivity.
      * rewrite <- app_assoc. reflexivity.
      * cbn [Datatypes.length]. do 2 f_equal. lia.
    + destruct T as [-> ->]. reflexivity.
Qed.

(** X7.  The validation loop of [main] keeps the objects that pass the
    strict gate, in their order, and counts the others; it raises
    [TypeError] when it meets an object on which [validate_ability] raises.
    So the objects kept and the objects counted as invalid add up to the
    objects given. *)
Theorem validate_objects_partition (objects : list dict) :
  validate_objects objects =
  (if existsb raises_in_validator objects then Raise TypeError
   else Ok (filter strict_gate objects,
            List.length (filter (fun obj => negb (strict_gate obj)) objects)))
  /\
  (List.length (filter strict_gate objects) +
   List.length (filter (fun obj => negb (strict_gate obj)) objects)
   = List.length objects)%nat.
Proof.
  split.
  - unfold validate_objects. rewrite validate_loop_value. reflexivity.
  - induction objects as [|obj rest IH]; [reflexivity|].
    cbn [filter]. destruct (strict_gate obj); cbn [negb Datatypes.length]; lia.
Qed.

Section WithParser.

Variable json_loads : list ascii -> loaded.

Lemma extracted_have_keys (text : list ascii) (objects : list dict) :
  extract_json_objects json_loads text = Ok objects ->
  Forall (fun obj => dict_contains "name" obj = true /\
                     dict_contains "ability" obj = true)
         objects.
Proof.
  intros Hrun.
  destruct (scan_loop_places json_loads text text [] scan_init [] [] objects
              eq_refl eq_refl) as (places & HF & _);
    try constructor; try exact Hrun.
  - unfold Invariants.buffered. simpl. discriminate.
  - clear Hrun.
    induction HF as [|place obj places objs H _ IH]; [constructor|].
    constructor; [|exact IH].
    destruct H as (_ & _ & _ & Hn & Ha). split; assumption.
Qed.

(** X8.  An object that [extract_json_objects] returned is never rejected
    for a missing [name] or [ability]: when [validate_ability] rejects it,
    the reason is one of the five others. *)
Theorem extracted_object_rejection_reasons (text : list ascii)
  (objects : list dict) (obj : dict) (msg : string) :
  extract_json_objects json_loads text = Ok objects ->
  In obj objects ->
  validate_ability obj = Ok (false, msg) ->
  In msg [ "Missing field: description"; "Missing field: color";
           "Invalid primitives (must have exactly 2)"; "Missing effects";
           "Missing cooldown" ]%string.
Proof.
  intros Hrun Hin Hv.
  pose proof (extracted_have_keys text objects Hrun) as Hk.
  rewrite Forall_forall in Hk.
  destruct (Hk obj Hin) as [Hname Hability].
  pose proof (validate_ability_table obj) as T. rewrite Hv in T.
  unfold first_violation, constraints in T. cbn [find fst snd] in T.
  rewrite Hname, Hability in T. cbn [negb] in T.
  destruct (dict_contains "description" obj); cbn [negb] in T;
    [|injection T as <-; simpl; tauto].
  destruct (dict_contains "color" obj); cbn [negb] in T;
    [|injection T as <-; simpl; tauto].
  destruct (has_two_primitives obj); cbn [negb] in T;
    [|injection T as <-; simpl; tauto].
  destruct (has_effects obj); cbn [negb] in T;
    [|injection T as <-; simpl; tauto].
  destruct (has_cooldown obj); cbn [negb] in T;
    [discriminate | injection T as <-; simpl; tauto].
Qed.

Variable K : Type.
Variable sorted_tuple : json -> result K.
Variable key_eqb : K -> K -> bool.

Lemma summary_loop_not_nil (valid_objects : list dict) :
  forall element_combos combos,
    summary_loop K sorted_tuple key_eqb valid_objects element_combos = Ok combos ->
    element_combos <> [] \/ valid_objects <> [] ->
    combos <> [].
Proof.
  induction valid_objects as [|obj rest IH]; intros element_combos combos H Hne.
  - injection H as <-. destruct Hne as [Hne|Hne]; [exact Hne | contradiction].
  - cbn [summary_loop] in H.
    destruct (py_getitem (JObj obj) "ability") as [ability|]; [|discriminate].
    cbn [bind] in H.
    destruct (py_getitem ability "primitives") as [prims|]; [|discriminate].
    cbn [bind] in H.
    destruct (sorted_tuple prims) as [key|]; [|discriminate].
    cbn [bind] in H. apply (IH _ _ H). left.
    apply AnalysisFacts.incr_not_nil.
Qed.

Lemma main_value (content : list ascii) :
  main json_loads K sorted_tuple key_eqb content =
  match extract_json_objects json_loads content with
  | Raise e => mkOutcome None (Raise e)
  | Ok objects =>
      if existsb raises_in_validator objects
      then mkOutcome None (Raise TypeError)
      else
        let valid_objects := filter strict_gate objects in
        mkOutcome (Some valid_objects)
          (element_combos <-
             summary_loop K sorted_tuple key_eqb valid_objects [] ;;
           average <- AnalyzeTrainingDiversity.true_div
                        (INR (List.length valid_objects))
                        (INR (List.length element_combos)) ;;
           Ok (List.length valid_objects))
  end.
Proof.
  unfold main.
  destruct (extract_json_objects json_loads content) as [objects|e];
    [|reflexivity].
  unfold validate_objects. rewrite validate_loop_value.
  destruct (existsb raises_in_validator objects); reflexivity.
Qed.

(** X9.  [main] never returns 0.  When it returns, the extraction had
    returned, the value is the number of objects that pass the strict gate
    among those extracted, there is at least one, and they are what was
    written to the output file, in the order of extraction. *)
Theorem main_returns_positive_count (content : list ascii) (count : nat) :
  returned (main json_loads K sorted_tuple key_eqb content) = Ok count ->
  exists objects,
    extract_json_objects json_loads content = Ok objects /\
    (0 < count)%nat /\
    count = List.length (filter strict_gate objects) /\
    output_file (main json_loads K sorted_tuple key_eqb content) =
    Some (filter strict_gate objects).
Proof.
  rewrite main_value.
  destruct (extract_json_objects json_loads content) as [objects|e];
    cbn [returned]; [|discriminate].
  intros Hret. exists objects. split; [reflexivity|]. revert Hret.
  set (valid := filter strict_gate objects).
  destruct (existsb raises_in_validator objects); cbv zeta;
    cbn [returned output_file]; [discriminate|]. fold valid.
  destruct (summary_loop K sorted_tuple key_eqb valid []) as [combos|e] eqn:Hs;
    cbn [bind]; [|discriminate].
  destruct valid as [|obj rest] eqn:Hvalid.
  - injection Hs as <-. cbn [Datatypes.length].
    rewrite EntropyFacts.true_div_zero. discriminate.
  - assert (Hne : combos <> []).
    { apply (summary_loop_not_nil (obj :: rest) [] combos Hs).
      right. discriminate. }
    rewrite EntropyFacts.true_div_ok.
    + cbn [bind]. intros [= <-]. cbn [Datatypes.length].
      repeat split. lia.
    + apply not_0_INR. destruct combos; [contradiction | discriminate].
Qed.

(** X10.  When none of the extracted objects passes the strict gate (and
    none makes the validator raise), [main] writes the empty array to the
    output file and then raises [ZeroDivisionError] in the summary
    statistics. *)
Theorem main_without_valid_object (content : list ascii) (objects : list dict) :
  extract_json_objects json_loads content = Ok objects ->
  existsb raises_in_validator objects = false ->
  filter strict_gate objects = [] ->
  main json_loads K sorted_tuple key_eqb content =
  mkOutcome (Some []) (Raise ZeroDivisionError).
Proof.
  intros Hrun Hr He. rewrite main_value, Hrun. cbv zeta. rewrite Hr, He.
  cbn [summary_loop bind Datatypes.length].
  rewrite EntropyFacts.true_div_zero. reflexivity.
Qed.

(** X11.  When [validate_ability] raises on one of the extracted objects,
    [main] raises [TypeError] before anything is written to the output
    file. *)
Theorem main_validator_raises (content : list ascii) (objects : list dict) :
  extract_json_objects json_loads content = Ok objects ->
  existsb raises_in_validator objects = true ->
  main json_loads K sorted_tuple key_eqb content =
  mkOutcome None (Raise TypeError).
Proof.
  intros Hrun Hr. rewrite main_value, Hrun. rewrite Hr. reflexivity.
Qed.

End WithParser.

End ValidateLaws.

(** ** Laws of the analyses *)

Module AnalysisLaws.

Import AnalyzeTrainingDiversity Stats Walk Parameters Invariants EntropyFacts
  AnalysisFacts.

Local Open Scope R_scope.

(** *** Counters *)

Lemma incr_sum (K : Type) (eqb : K -> K -> bool) (key : K) (counts : Counter K) :
  list_sum (values (incr eqb key counts)) = S (list_sum (values counts)).
Proof.
  unfold values. induction counts as [|[k c] rest IH]; simpl; [reflexivity|].
  destruct (eqb key k); simpl; [reflexivity|]. rewrite IH. lia.
Qed.

Lemma incr_positive (K : Type) (eqb : K -> K -> bool) (key : K)
  (counts : Counter K) :
  Forall (fun c => (0 < c)%nat) (values counts) ->
  Forall (fun c => (0 < c)%nat) (values (incr eqb key counts)).
Proof.
  unfold values. induction counts as [|[k c] rest IH]; simpl; intros H.
  - repeat constructor.
  - inversion H; subst. destruct (eqb key k); simpl; constructor;
      try assumption; try lia. apply IH. assumption.
Qed.

Lemma tally_sum (K : Type) (eqb : K -> K -> bool) (l : list K) :
  forall counts,
    list_sum (values (fold_left (fun counts key => incr eqb key counts) l counts))
    = (list_sum (values counts) + List.length l)%nat.
Proof.
  induction l as [|x l IH]; intros counts; simpl; [lia|].
  rewrite IH, incr_sum. lia.
Qed.

Lemma tally_positive (K : Type) (eqb : K -> K -> bool) (l : list K) :
  forall counts,
    Forall (fun c => (0 < c)%nat) (values counts) ->
    Forall (fun c => (0 < c)%nat)
      (values (fold_left (fun counts key => incr eqb key counts) l counts)).
Proof.
  induction l as [|x l IH]; intros counts H; simpl; [exact H|].
  apply IH, incr_positive, H.
Qed.

Lemma count_all_sum (K : Type) (eqb : K -> K -> bool) (l : list K) :
  list_sum (values (count_all eqb l)) = List.length l.
Proof. unfold count_all. rewrite tally_sum. reflexivity. Qed.

Lemma count_all_positive (K : Type) (eqb : K -> K -> bool) (l : list K) :
  Forall (fun c => (0 < c)%nat) (values (count_all eqb l)).
Proof. unfold count_all. apply tally_positive. constructor. Qed.

Lemma positive_sum_length (l : list nat) :
  Forall (fun c => (0 < c)%nat) l -> (List.length l <= list_sum l)%nat.
Proof. induction 1 as [|c l Hc _ IH]; simpl; lia. Qed.

Lemma element_combos_count_all (items : list Entry) :
  element_combos items = count_all tuple_eqb (map entry_pair items).
Proof.
  unfold element_combos, count_all. rewrite fold_left_map. reflexivity.
Qed.

(** *** Entropy *)

(** X12.  [shannon_entropy] never raises and its value is not negative;
    the value is 0 when at most one key has a positive count. *)
Theorem shannon_entropy_nonnegative (K : Type) (counts : Counter K) :
  exists e,
    shannon_entropy counts = Ok e /\ 0 <= e /\
    ((List.length (filter (fun c => (0 <? c)%nat) (values counts)) <= 1)%nat ->
     e = 0).
Proof.
  unfold shannon_entropy.
  destruct (Nat.eqb_spec (list_sum (values counts)) 0) as [E|E].
  - exists 0. split; [reflexivity|]. split; [lra | reflexivity].
  - exists (entropy_of (values counts)). split.
    { rewrite fold_entropy_step by exact E. unfold entropy_of. f_equal. ring. }
    split; [apply entropy_of_nonneg, E|]. intros Hone.
    unfold entropy_of.
    pose proof (list_sum_positive_part (values counts)) as Hsum.
    destruct (filter (fun c => (0 <? c)%nat) (values counts))
      as [|c [|c' rest]]; cbn [Datatypes.length] in Hone; [| |lia].
    + simpl in Hsum. congruence.
    + cbn [list_sum fold_right] in Hsum. rewrite Nat.add_0_r in Hsum.
      rewrite <- Hsum. cbn [map Rsum fold_right].
      assert (Hc : INR c <> 0) by (apply not_0_INR; congruence).
      replace (INR c / INR c) with 1 by (field; exact Hc).
      unfold log2. rewrite ln_1. unfold Rdiv. ring.
Qed.

(** *** Minimum, maximum and average *)

Lemma fold_min_spec (l : list nat) :
  forall a, let m := fold_left Nat.min l a in
            In m (a :: l) /\ Forall (fun x => (m <= x)%nat) (a :: l).
Proof.
  induction l as [|x l IH]; intros a; cbn [fold_left].
  - split; [left; reflexivity | repeat constructor].
  - destruct (IH (Nat.min a x)) as [Hin Hall]. cbv zeta in *.
    set (m := fold_left Nat.min l (Nat.min a x)) in *.
    inversion Hall as [|y ys Hm Hrest]; subst. split.
    + destruct Hin as [Hin|Hin]; [|right; right; exact Hin].
      destruct (Nat.min_spec a x) as [[_ E]|[_ E]]; rewrite E in Hin.
      * left. exact Hin.
      * right. left. exact Hin.
    + constructor; [lia|]. constructor; [lia | exact Hrest].
Qed.

Lemma fold_max_spec (l : list nat) :
  forall a, let m := fold_left Nat.max l a in
            In m (a :: l) /\ Forall (fun x => (x <= m)%nat) (a :: l).
Proof.
  induction l as [|x l IH]; intros a; cbn [fold_left].
  - split; [left; reflexivity | repeat constructor].
  - destruct (IH (Nat.max a x)) as [Hin Hall]. cbv zeta in *.
    set (m := fold_left Nat.max l (Nat.max a x)) in *.
    inversion Hall as [|y ys Hm Hrest]; subst. split.
    + destruct Hin as [Hin|Hin]; [|right; right; exact Hin].
      destruct (Nat.max_spec a x) as [[_ E]|[_ E]]; rewrite E in Hin.
      * right. left. exact Hin.
      * left. exact Hin.
    + constructor; [lia|]. constructor; [lia | exact Hrest].
Qed.

Lemma py_min_spec (l : list nat) (m : nat) :
  py_min l = Ok m -> In m l /\ Forall (fun x => (m <= x)%nat) l.
Proof.
  destruct l as [|a l]; [discriminate|]. intros [= <-]. apply fold_min_spec.
Qed.

Lemma py_max_spec (l : list nat) (m : nat) :
  py_max l = Ok m -> In m l /\ Forall (fun x => (x <= m)%nat) l.
Proof.
  destruct l as [|a l]; [discriminate|]. intros [= <-]. apply fold_max_spec.
Qed.

Lemma sum_at_least (m : nat) (l : list nat) :
  Forall (fun x => (m <= x)%nat) l -> (m * List.length l <= list_sum l)%nat.
Proof. induction 1 as [|x l Hx _ IH]; simpl; lia. Qed.

Lemma sum_at_most (m : nat) (l : list nat) :
  Forall (fun x => (x <= m)%nat) l -> (list_sum l <= m * List.length l)%nat.
Proof. induction 1 as [|x l Hx _ IH]; simpl; lia. Qed.

(** The average of a list that is not empty lies between its minimum and
    its maximum. *)
Lemma average_between (l : list nat) (lo hi : nat) :
  l <> [] -> py_min l = Ok lo -> py_max l = Ok hi ->
  (lo <= hi)%nat /\
  INR lo <= INR (list_sum l) / INR (List.length l) <= INR hi.
Proof.
  intros Hne Hlo Hhi.
  destruct (py_min_spec l lo Hlo) as [Hin Hmin].
  destruct (py_max_spec l hi Hhi) as [_ Hmax].
  assert (Hlen : 0 < INR (List.length l)).
  { apply lt_0_INR. destruct l; [contradiction | simpl; lia]. }
  split.
  - rewrite Forall_forall in Hmax. apply Hmax, Hin.
  - pose proof (le_INR _ _ (sum_at_least lo l Hmin)) as H1.
    pose proof (le_INR _ _ (sum_at_most hi l Hmax)) as H2.
    rewrite mult_INR in H1, H2. split.
    + apply (Rmult_le_reg_r (INR (List.length l))); [exact Hlen|].
      replace (INR (list_sum l) / INR (List.length l) * INR (List.length l))
        with (INR (list_sum l)) by (field; lra).
      exact H1.
    + apply (Rmult_le_reg_r (INR (List.length l))); [exact Hlen|].
      replace (INR (list_sum l) / INR (List.length l) * INR (List.length l))
        with (INR (list_sum l)) by (field; lra).
      exact H2.
Qed.

(** *** Element combinations *)

(** All the fields of what [analyze_element_combinations] returns. *)
Lemma analyze_element_combinations_record (items : list Entry) :
  exists r e,
    analyze_element_combinations (init items) = Ok r /\
    shannon_entropy (element_combos items) = Ok e /\
    distribution r = element_combos items /\
    unique_combinations r = List.length (element_combos items) /\
    entropy r = e /\
    max_entropy r =
      (if nonempty (element_combos items)
       then log2 (INR (List.length (element_combos items))) else 0) /\
    evenness_percent r =
      (if Rlt_dec 0 (max_entropy r) then e / max_entropy r * 100 else 0) /\
    (element_combos items = [] ->
     min_samples r = 0%nat /\ max_samples r = 0%nat /\ avg_samples r = 0) /\
    (element_combos items <> [] ->
     py_min (values (element_combos items)) = Ok (min_samples r) /\
     py_max (values (element_combos items)) = Ok (max_samples r) /\
     avg_samples r = INR (list_sum (values (element_combos items)))
                     / INR (List.length (element_combos items))).
Proof.
  unfold analyze_element_combinations. cbn [data init].
  set (combos := element_combos items).
  rewrite true_div_ok by (apply not_0_INR; discriminate). cbn [bind].
  destruct (shannon_entropy_value _ combos) as (e & He & He0).
  rewrite He. cbn [bind].
  set (m := if nonempty combos then log2 (INR (List.length combos)) else 0).
  assert (Hev : (if Rlt_dec 0 m
                 then r <- true_div e m ;; Ok (r * 100)
                 else Ok 0) =
                Ok (if Rlt_dec 0 m then e / m * 100 else 0)).
  { destruct (Rlt_dec 0 m) as [Hm|Hm]; [|reflexivity].
    rewrite true_div_ok by lra. reflexivity. }
  rewrite Hev. cbn [bind].
  destruct combos as [|kc rest] eqn:Ec.
  - cbn [nonempty bind]. do 2 eexists. split; [reflexivity|].
    cbn. repeat split; try reflexivity; try contradiction.
  - cbn [nonempty]. rewrite true_div_ok by (apply not_0_INR; discriminate).
    cbn [py_min py_max values map bind].
    do 2 eexists. split; [reflexivity|].
    cbn [distribution unique_combinations entropy max_entropy evenness_percent
         min_samples max_samples avg_samples].
    repeat split; try reflexivity; try discriminate.
Qed.

(** X14.  In what [analyze_element_combinations] returns, the counts of the
    distribution add up to the number of records, so there are at most as
    many distinct pairs as records; on data that is not empty every pair
    has at least one sample, the average number of samples lies between the
    minimum and the maximum, and it is the number of records over the
    number of distinct pairs. *)
Theorem element_samples_add_up (items : list Entry) :
  exists r,
    analyze_element_combinations (init items) = Ok r /\
    list_sum (values (distribution r)) = List.length items /\
    (unique_combinations r <= List.length items)%nat /\
    (items <> [] ->
     (1 <= min_samples r <= max_samples r)%nat /\
     INR (min_samples r) <= avg_samples r <= INR (max_samples r) /\
     avg_samples r = INR (List.length items) / INR (unique_combinations r)).
Proof.
  destruct (analyze_element_combinations_record items)
    as (r & e & Hr & _ & Hd & Hu & _ & _ & _ & _ & Hfields).
  exists r. split; [exact Hr|]. rewrite Hd, Hu.
  assert (Hsum : list_sum (values (element_combos items)) = List.length items).
  { rewrite element_combos_count_all, count_all_sum, length_map. reflexivity. }
  assert (Hpos : Forall (fun c => (0 < c)%nat) (values (element_combos items))).
  { rewrite element_combos_count_all. apply count_all_positive. }
  assert (Hlen : List.length (values (element_combos items)) =
                 List.length (element_combos items))
    by (unfold values; apply length_map).
  split; [exact Hsum|]. split.
  { rewrite <- Hsum, <- Hlen. apply positive_sum_length, Hpos. }
  intros Hne.
  assert (Hc : element_combos items <> []).
  { intros E. rewrite E in Hsum. simpl in Hsum.
    destruct items; [contradiction | discriminate]. }
  destruct (Hfields Hc) as (Hmin & Hmax & Havg).
  assert (Hv : values (element_combos items) <> []).
  { intros E. rewrite E in Hlen. destruct (element_combos items);
      [contradiction | discriminate]. }
  destruct (average_between _ _ _ Hv Hmin Hmax) as [Hle Hbetween].
  destruct (py_min_spec _ _ Hmin) as [Hin _].
  rewrite Forall_forall in Hpos. pose proof (Hpos _ Hin) as H1.
  rewrite Hlen, Hsum in Hbetween. rewrite Hsum in Havg.
  split; [lia|]. split; [rewrite Havg; exact Hbetween | exact Havg].
Qed.

(** X15.  The evenness of the element analysis is not negative, and when
    at most one pair is observed both the entropy and the evenness are 0. *)
Theorem evenness_is_zero_without_variety (items : list Entry) :
  exists r,
    analyze_element_combinations (init items) = Ok r /\
    0 <= evenness_percent r /\
    ((unique_combinations r <= 1)%nat ->
     entropy r = 0 /\ evenness_percent r = 0).
Proof.
  destruct (analyze_element_combinations_value items)
    as (r & Hr & Hu & _ & Hev & Hzero).
  destruct (analyze_element_combinations_record items)
    as (r' & e & Hr' & He & _ & _ & Hent & _).
  rewrite Hr' in Hr. injection Hr as <-.
  exists r'. split; [exact Hr'|]. split; [exact Hev|].
  rewrite Hu. intros Hle. split; [|exact (Hzero Hle)].
  rewrite Hent. clear - He Hle.
  set (combos := element_combos items) in *.
  unfold shannon_entropy in He.
  destruct (Nat.eqb_spec (list_sum (values combos)) 0) as [E|E];
    [congruence|].
  rewrite fold_entropy_step in He by exact E. injection He as <-.
  destruct combos as [|[k c] [|kc' rest]]; cbn [Datatypes.length] in Hle;
    [contradiction E; reflexivity | | lia].
  cbn [values map snd list_sum fold_right] in *.
  rewrite Nat.add_0_r in *.
  destruct (Nat.ltb_spec 0 c) as [Hc|Hc]; [|lia].
  cbn [filter]. destruct (Nat.ltb_spec 0 c); [|lia].
  cbn [map Rsum fold_right].
  assert (Hc' : INR c <> 0) by (apply not_0_INR; lia).
  replace (INR c / INR c) with 1 by (field; exact Hc').
  unfold log2. rewrite ln_1. unfold Rdiv. ring.
Qed.

(** *** The order of the primitives *)

Lemma ascii_compare_lt_trans (a b c : ascii) :
  Ascii.compare a b = Lt -> Ascii.compare b c = Lt -> Ascii.compare a c = Lt.
Proof.
  unfold Ascii.compare. rewrite !N.compare_lt_iff. apply N.lt_trans.
Qed.

Lemma string_compare_refl (s : string) : String.compare s s = Eq.
Proof.
  induction s as [|a s IH]; simpl; [reflexivity|].
  unfold Ascii.compare. rewrite N.compare_refl. exact IH.
Qed.

Lemma string_compare_lt_trans (s1 : string) :
  forall s2 s3,
    String.compare s1 s2 = Lt -> String.compare s2 s3 = Lt ->
    String.compare s1 s3 = Lt.
Proof.
  induction s1 as [|a s1 IH]; intros [|b s2] [|c s3]; simpl;
    try discriminate; try reflexivity.
  destruct (Ascii.compare a b) eqn:Hab; try discriminate;
    destruct (Ascii.compare b c) eqn:Hbc; try discriminate; intros H1 H2.
  - apply Ascii.compare_eq_iff in Hab, Hbc. subst.
    unfold Ascii.compare at 1. rewrite N.compare_refl. eapply IH; eassumption.
  - apply Ascii.compare_eq_iff in Hab. subst. rewrite Hbc. reflexivity.
  - apply Ascii.compare_eq_iff in Hbc. subst. rewrite Hab. reflexivity.
  - rewrite (ascii_compare_lt_trans a b c Hab Hbc). reflexivity.
Qed.

Lemma string_leb_trans (s1 s2 s3 : string) :
  String.leb s1 s2 = true -> String.leb s2 s3 = true -> String.leb s1 s3 = true.
Proof.
  unfold String.leb.
  destruct (String.compare s1 s2) eqn:H12; try discriminate;
    destruct (String.compare s2 s3) eqn:H23; try discriminate; intros _ _.
  - apply String.compare_eq_iff in H12, H23. subst.
    rewrite string_compare_refl. reflexivity.
  - apply String.compare_eq_iff in H12. subst. rewrite H23. reflexivity.
  - apply String.compare_eq_iff in H23. subst. rewrite H12. reflexivity.
  - rewrite (string_compare_lt_trans s1 s2 s3 H12 H23). reflexivity.
Qed.

Lemma string_leb_false (a b : string) :
  String.leb a b = false -> String.leb b a = true.
Proof.
  intros H. destruct (String.leb_total a b) as [H'|H']; [congruence | exact H'].
Qed.

Lemma insert_sorted_comm (l : list string) (a b : string) :
  insert_sorted a (insert_sorted b l) = insert_sorted b (insert_sorted a l).
Proof.
  induction l as [|y l IH]; cbn [insert_sorted].
  - destruct (String.leb a b) eqn:Hab, (String.leb b a) eqn:Hba;
      try reflexivity.
    + rewrite (String.leb_antisym a b Hab Hba). reflexivity.
    + apply string_leb_false in Hab. congruence.
  - destruct (String.leb b y) eqn:Hby, (String.leb a y) eqn:Hay;
      cbn [insert_sorted]; rewrite ?Hby, ?Hay.
    + destruct (String.leb a b) eqn:Hab, (String.leb b a) eqn:Hba;
        try reflexivity.
      * rewrite (String.leb_antisym a b Hab Hba). reflexivity.
      * apply string_leb_false in Hab. congruence.
    + destruct (String.leb a b) eqn:Hab.
      * rewrite (string_leb_trans a b y Hab Hby) in Hay. discriminate.
      * reflexivity.
    + destruct (String.leb b a) eqn:Hba.
      * rewrite (string_leb_trans b a y Hba Hay) in Hby. discriminate.
      * reflexivity.
    + rewrite IH. reflexivity.
Qed.

Lemma sorted_permutation (l l' : list string) :
  Permutation l l' -> sorted l = sorted l'.
Proof.
  unfold sorted. induction 1 as [|x l l' _ IH|x y l|l l' l'' _ IH1 _ IH2];
    cbn [fold_right].
  - reflexivity.
  - rewrite IH. reflexivity.
  - apply insert_sorted_comm.
  - rewrite IH1. exact IH2.
Qed.

(** X16.  The order in which a record lists its primitives does not
    matter: two data sets whose records, one by one, have the same
    primitives up to order get the same element analysis. *)
Theorem primitive_order_is_irrelevant (items items' : list Entry) :
  Forall2 (fun entry entry' =>
             Permutation (primitives (ability entry))
                         (primitives (ability entry')))
          items items' ->
  element_combos items = element_combos items' /\
  analyze_element_combinations (init items) =
  analyze_element_combinations (init items').
Proof.
  intros H.
  assert (E : element_combos items = element_combos items').
  { rewrite !element_combos_count_all. f_equal.
    induction H as [|entry entry' items items' Hp _ IH]; [reflexivity|].
    cbn [map]. rewrite IH. f_equal. apply sorted_permutation, Hp. }
  split; [exact E|].
  unfold analyze_element_combinations. cbn [data init]. rewrite E. reflexivity.
Qed.

(** *** Actions *)

Lemma tally_action_fold (l : list ScriptNode) :
  forall acts sq,
    fold_left tally_action l (acts, sq) =
    (fold_left (fun counts key => incr String.eqb key counts)
       (map (fun node => get_action node "unknown") l) acts,
     sq ++ map (fun node => get_action node "unknown") l).
Proof.
  induction l as [|node l IH]; intros acts sq; cbn [fold_left map].
  - rewrite app_nil_r. reflexivity.
  - unfold tally_action at 2. cbn [fst snd]. rewrite IH, <- app_assoc.
    reflexivity.
Qed.

Lemma tally_entry_fold (items : list Entry) :
  forall acts seqs,
    fold_left tally_entry items (acts, seqs) =
    (fold_left (fun counts key => incr String.eqb key counts)
       (flat_map entry_actions items) acts,
     seqs ++ map entry_actions items).
Proof.
  induction items as [|entry items IH]; intros acts seqs;
    cbn [fold_left map flat_map].
  - rewrite app_nil_r. reflexivity.
  - unfold tally_entry at 2. cbn [fst snd].
    rewrite (fold_left_flat_map _ _ _ tally_action script), tally_action_fold.
    cbn [fst snd app]. rewrite IH, fold_left_app, <- app_assoc. reflexivity.
Qed.

Lemma map_flat_map (A B C : Type) (f : B -> C) (g : A -> list B) (l : list A) :
  map f (flat_map g l) = flat_map (fun x => map f (g x)) l.
Proof.
  induction l as [|x l IH]; simpl; [reflexivity|].
  rewrite map_app, IH. reflexivity.
Qed.

Lemma flat_map_entry_actions (items : list Entry) :
  flat_map entry_actions items =
  map (fun node => get_action node "unknown") (top_level_scripts items).
Proof.
  unfold top_level_scripts. rewrite map_flat_map. reflexivity.
Qed.

(** All the fields of what [analyze_actions] returns on data that is not
    empty. *)
Lemma analyze_actions_record (items : list Entry) :
  items <> [] ->
  exists r,
    analyze_actions (init items) = Ok r /\
    action_distribution r =
      count_all String.eqb
        (map (fun node => get_action node "unknown") (top_level_scripts items)) /\
    unique_actions r = List.length (action_distribution r) /\
    unique_sequences r =
      List.length (distinct tuple_eqb (map entry_actions items)) /\
    sequence_diversity_percent r =
      INR (unique_sequences r) / INR (List.length items) * 100.
Proof.
  intros Hne. unfold analyze_actions. cbn [data n init].
  rewrite tally_entry_fold. cbn [fst snd app].
  rewrite flat_map_entry_actions.
  fold (count_all String.eqb
          (map (fun node => get_action node "unknown") (top_level_scripts items))).
  destruct (shannon_entropy_value _
              (count_all tuple_eqb (map entry_actions items))) as (e1 & -> & _).
  cbn [bind].
  destruct (shannon_entropy_value _
              (count_all String.eqb
                 (map (fun node => get_action node "unknown")
                    (top_level_scripts items)))) as (e2 & -> & _).
  cbn [bind]. rewrite true_div_ok.
  - cbn [bind]. eexists. split; [reflexivity|]. repeat split.
  - apply not_0_INR. destruct items; [contradiction | discriminate].
Qed.

(** X17.  The action distribution counts the script nodes that stand
    directly in an effect's [script] list, and no node under [on_hit]: it is
    the tally of their actions ("unknown" for a node without one), and its
    counts add up to the number of those nodes. *)
Theorem action_distribution_is_top_level (items : list Entry) :
  items <> [] ->
  exists r,
    analyze_actions (init items) = Ok r /\
    action_distribution r =
      count_all String.eqb
        (map (fun node => get_action node "unknown") (top_level_scripts items)) /\
    list_sum (values (action_distribution r)) =
      List.length (top_level_scripts items) /\
    (unique_actions r <= List.length (top_level_scripts items))%nat.
Proof.
  intros Hne.
  destruct (analyze_actions_record items Hne) as (r & Hr & Hd & Hu & _).
  exists r. split; [exact Hr|]. split; [exact Hd|].
  assert (Hsum : list_sum (values (action_distribution r)) =
                 List.length (top_level_scripts items)).
  { rewrite Hd, count_all_sum, length_map. reflexivity. }
  split; [exact Hsum|]. rewrite Hu, <- Hsum.
  replace (List.length (action_distribution r))
    with (List.length (values (action_distribution r)))
    by (unfold values; apply length_map).
  apply positive_sum_length. rewrite Hd. apply count_all_positive.
Qed.

Lemma filter_length_all (A : Type) (f : A -> bool) (l : list A) :
  List.length (filter f l) = List.length l -> filter f l = l.
Proof.
  induction l as [|x l IH]; [reflexivity|]. cbn [filter].
  pose proof (filter_length_le f l) as Hle.
  destruct (f x); cbn [Datatypes.length]; intros H.
  - f_equal. apply IH. lia.
  - lia.
Qed.

Section Distinct.

Context {K : Type} (eqb : K -> K -> bool).

Hypothesis eqb_eq : forall x y, eqb x y = true <-> x = y.

Lemma distinct_in (l : list K) (x : K) : In x (distinct eqb l) <-> In x l.
Proof.
  induction l as [|y l IH]; [tauto|]. cbn [distinct]. split.
  - intros [->|H]; [left; reflexivity|]. apply filter_In in H.
    right. apply IH, H.
  - intros [->|H]; [left; reflexivity|].
    destruct (eqb y x) eqn:E.
    + apply eqb_eq in E. left. exact E.
    + right. apply filter_In. split; [apply IH, H | rewrite E; reflexivity].
Qed.

Lemma distinct_full_iff (l : list K) :
  List.length (distinct eqb l) = List.length l <-> NoDup l.
Proof.
  induction l as [|x l IH]; [split; [constructor | reflexivity]|].
  cbn [distinct Datatypes.length].
  pose proof (filter_length_le (fun y => negb (eqb x y)) (distinct eqb l)) as H1.
  pose proof (distinct_length K eqb l) as H2.
  split.
  - intros H.
    assert (Hf : filter (fun y => negb (eqb x y)) (distinct eqb l) = distinct eqb l)
      by (apply filter_length_all; lia).
    constructor; [|apply IH; lia].
    intros Hin. apply distinct_in in Hin. rewrite <- Hf in Hin.
    apply filter_In in Hin. destruct Hin as [_ Hin].
    rewrite (proj2 (eqb_eq x x) eq_refl) in Hin. discriminate.
  - intros Hnd. inversion Hnd as [|y ys Hnot Hrest]; subst.
    apply IH in Hrest. f_equal. rewrite <- Hrest. f_equal.
    assert (Hall : forall d, (forall z, In z d -> z <> x) ->
                     filter (fun y => negb (eqb x y)) d = d).
    { induction d as [|z d IHd]; intros Hd; [reflexivity|]. cbn [filter].
      destruct (eqb x z) eqn:E.
      - apply eqb_eq in E. exfalso. apply (Hd z); [left; reflexivity | congruence].
      - cbn [negb]. f_equal. apply IHd. intros w Hw. apply Hd. right. exact Hw. }
    apply Hall. intros z Hz Hzx. subst z. apply Hnot, distinct_in, Hz.
Qed.

End Distinct.

(** X18.  The sequence diversity is a percentage above 0, and it is 100
    exactly when no two records have the same sequence of top-level
    actions. *)
Theorem sequence_diversity_full_iff_distinct (items : list Entry) :
  items <> [] ->
  exists r,
    analyze_actions (init items) = Ok r /\
    0 < sequence_diversity_percent r <= 100 /\
    (sequence_diversity_percent r = 100 <-> NoDup (map entry_actions items)).
Proof.
  intros Hne.
  destruct (analyze_actions_record items Hne) as (r & Hr & _ & _ & Hu & Hs).
  exists r. split; [exact Hr|]. rewrite Hs, Hu.
  set (seqs := map entry_actions items).
  assert (Hlen : List.length seqs = List.length items) by apply length_map.
  assert (Hn : 0 < INR (List.length items)).
  { apply lt_0_INR. destruct items; [contradiction | simpl; lia]. }
  pose proof (distinct_length _ tuple_eqb seqs) as Hle.
  assert (Hd : (0 < List.length (distinct tuple_eqb seqs))%nat).
  { unfold seqs. destruct items; [contradiction|]. simpl. lia. }
  apply lt_INR in Hd. change (INR 0) with 0 in Hd.
  rewrite Hlen in Hle. pose proof (le_INR _ _ Hle) as Hle'.
  set (u := INR (List.length (distinct tuple_eqb seqs))) in *.
  set (m := INR (List.length items)) in *.
  assert (Hq : u / m * m = u) by (field; lra).
  assert (H0 : 0 < u / m).
  { unfold Rdiv. apply Rmult_lt_0_compat; [exact Hd|].
    apply Rinv_0_lt_compat, Hn. }
  assert (H1 : u / m <= 1).
  { apply (Rmult_le_reg_r m); [exact Hn|]. rewrite Hq. lra. }
  split; [lra|].
  rewrite <- (distinct_full_iff tuple_eqb tuple_eqb_eq seqs), Hlen. split.
  - intros H. apply INR_eq. fold u m.
    assert (u / m = 1) by lra. rewrite <- Hq. rewrite H2. ring.
  - intros H. unfold u, m. rewrite H. fold m. field. lra.
Qed.

(** *** Script trees *)

Lemma ScriptNode_children_ind (P : ScriptNode -> Prop) :
  (forall action args on_hit,
     Forall P on_hit -> P (Script action args on_hit)) ->
  forall node, P node.
Proof.
  intros H. fix IH 1. intros [action args on_hit]. apply H.
  induction on_hit as [|child rest IHrest]; constructor;
    [apply IH | exact IHrest].
Qed.

Lemma value_eqb_eq (a b : value) : value_eqb a b = true <-> a = b.
Proof.
  destruct a as [s|x], b as [t|y]; simpl; try (split; discriminate).
  - rewrite String.eqb_eq. split; [intros ->; reflexivity | intros [= ->]; reflexivity].
  - rewrite Z.eqb_eq. split; [intros ->; reflexivity | intros [= ->]; reflexivity].
Qed.

(** [extract_statuses] tallies the [apply_status] nodes of the whole tree
    under a node, depth first. *)
Lemma extract_statuses_walk (node : ScriptNode) :
  forall statuses,
    extract_statuses node statuses =
    fold_left (fun counts key => incr value_eqb key counts)
      (map status_of (filter is_apply_status (tree_nodes node))) statuses.
Proof.
  induction node as [action args on_hit IH] using ScriptNode_children_ind.
  intros statuses. cbn [extract_statuses tree_nodes filter].
  unfold is_apply_status at 1.
  set (first := if action_is (Script action args on_hit) "apply_status"
                then incr value_eqb (args_get "status" (VStr "unknown") args)
                       statuses
                else statuses).
  assert (Hkids : forall st,
            fold_left (fun statuses child => extract_statuses child statuses)
              on_hit st =
            fold_left (fun counts key => incr value_eqb key counts)
              (map status_of
                 (filter is_apply_status (flat_map tree_nodes on_hit))) st).
  { induction IH as [|child rest Hchild _ IHrest]; intros st; [reflexivity|].
    cbn [fold_left flat_map]. rewrite Hchild, IHrest.
    rewrite filter_app, map_app, fold_left_app. reflexivity. }
  rewrite Hkids. unfold first.
  destruct (action_is (Script action args on_hit) "apply_status");
    reflexivity.
Qed.

Lemma filter_flat_map (A B : Type) (f : B -> bool) (g : A -> list B)
  (l : list A) :
  filter f (flat_map g l) = flat_map (fun x => filter f (g x)) l.
Proof.
  induction l as [|x l IH]; simpl; [reflexivity|].
  rewrite filter_app, IH. reflexivity.
Qed.

Lemma status_counter_walk (items : list Entry) :
  status_counter items =
  count_all value_eqb
    (map status_of (filter is_apply_status (all_nodes items))).
Proof.
  unfold status_counter, all_nodes, top_level_scripts, count_all.
  rewrite (fold_left_pointwise _ _ _
             (fun acc entry =>
                fold_left (fun acc script => extract_statuses script acc)
                  (flat_map script (effects (ability entry))) acc)).
  2:{ intros acc entry.
      apply (fold_left_flat_map _ _ _
               (fun acc script => extract_statuses script acc) script). }
  rewrite (fold_left_flat_map _ _ _
             (fun acc script => extract_statuses script acc)
             (fun entry => flat_map script (effects (ability entry)))).
  generalize (flat_map (fun entry => flat_map script (effects (ability entry)))
                items) at 1 2.
  intros scripts. generalize (@nil (value * nat)).
  induction scripts as [|node scripts IH]; intros acc; [reflexivity|].
  cbn [fold_left flat_map]. rewrite extract_statuses_walk, IH.
  rewrite filter_app, map_app, fold_left_app. reflexivity.
Qed.

(** X19.  The status analysis sees the whole tree: every node with the
    action [apply_status], nested under [on_hit] or not, is tallied under
    its [args.status] ("unknown" without one).  The counts add up to the
    number of those nodes, and [unique_statuses] is the number of distinct
    statuses among them.  The analysis never raises. *)
Theorem status_analysis_walks_the_tree (items : list Entry) :
  let found := filter is_apply_status (all_nodes items) in
  exists r,
    analyze_status_effects (init items) = Ok r /\
    status_distribution r = count_all value_eqb (map status_of found) /\
    list_sum (values (status_distribution r)) = List.length found /\
    unique_statuses r =
      List.length (distinct value_eqb (map status_of found)).
Proof.
  intros found. unfold analyze_status_effects. cbn [data init].
  rewrite status_counter_walk. fold found.
  destruct (shannon_entropy_value _
              (count_all value_eqb (map status_of found))) as (e & -> & _).
  cbn [bind]. eexists. split; [reflexivity|].
  cbn [status_distribution unique_statuses]. split; [reflexivity|]. split.
  - rewrite count_all_sum, length_map. reflexivity.
  - rewrite <- (keys_count_all value_eqb value_eqb_eq), length_map.
    reflexivity.
Qed.

(** *** Complexity *)

Lemma get_max_depth_height (node : ScriptNode) :
  forall depth, get_max_depth node depth = (depth + height node)%nat.
Proof.
  induction node as [action args on_hit IH] using ScriptNode_children_ind.
  intros depth. cbn [get_max_depth height].
  enough (forall acc, (depth <= acc)%nat ->
            fold_left
              (fun max_d child =>
                 Nat.max max_d (get_max_depth child (depth + 1)))
              on_hit acc =
            Nat.max acc
              (depth + fold_right (fun child m => Nat.max (S (height child)) m)
                         0%nat on_hit)) as H.
  { rewrite H by lia. lia. }
  induction IH as [|child rest Hchild _ IHrest]; intros acc Hacc;
    cbn [fold_left fold_right]; [lia|].
  rewrite Hchild, IHrest by lia. lia.
Qed.

Lemma fold_max_list_max (l : list nat) (a : nat) :
  fold_left Nat.max l a = Nat.max a (list_max l).
Proof.
  revert a. induction l as [|x l IH]; intros a; simpl; [lia|].
  rewrite IH. lia.
Qed.

Lemma entry_complexity_value (entry : Entry) :
  entry_complexity entry =
  (List.length (entry_scripts entry),
   list_max (map height (entry_scripts entry))).
Proof.
  unfold entry_complexity, entry_scripts.
  rewrite (fold_left_flat_map _ _ _
             (fun st script =>
                ((fst st + 1)%nat, Nat.max (snd st) (get_max_depth script 0)))
             script).
  generalize (flat_map script (effects (ability entry))). intros l.
  enough (forall t m,
            fold_left
              (fun st script =>
                 ((fst st + 1)%nat, Nat.max (snd st) (get_max_depth script 0)))
              l (t, m) =
            ((t + List.length l)%nat, Nat.max m (list_max (map height l))))
    as H by (rewrite H; reflexivity).
  induction l as [|node l IH]; intros t m; cbn [fold_left].
  - simpl. f_equal; lia.
  - cbn [fst snd]. rewrite IH, get_max_depth_height.
    unfold list_max. cbn [map fold_right Datatypes.length]. f_equal; lia.
Qed.

Lemma complexity_lists_value (items : list Entry) :
  complexity_lists items =
  (map (fun entry => List.length (entry_scripts entry)) items,
   map (fun entry => list_max (map height (entry_scripts entry))) items).
Proof.
  unfold complexity_lists.
  enough (forall acc : list nat * list nat,
            fold_left
              (fun acc entry =>
                 let c := entry_complexity entry in
                 (fst acc ++ [fst c], snd acc ++ [snd c]))
              items acc =
            (fst acc ++ map (fun entry => List.length (entry_scripts entry)) items,
             snd acc ++
             map (fun entry => list_max (map height (entry_scripts entry))) items))
    as H by (rewrite H; reflexivity).
  induction items as [|entry items IH]; intros acc; cbn [fold_left map].
  - rewrite !app_nil_r. destruct acc; reflexivity.
  - rewrite IH, entry_complexity_value. cbn [fst snd].
    rewrite <- !app_assoc. reflexivity.
Qed.

Lemma list_sum_lengths (items : list Entry) :
  list_sum (map (fun entry => List.length (entry_scripts entry)) items) =
  List.length (top_level_scripts items).
Proof.
  unfold top_level_scripts. induction items as [|entry items IH];
    [reflexivity|].
  cbn [map list_sum fold_right flat_map]. rewrite length_app.
  change (fold_right Nat.add 0%nat
            (map (fun entry => List.length (entry_scripts entry)) items))
    with (list_sum (map (fun entry => List.length (entry_scripts entry)) items)).
  rewrite IH. reflexivity.
Qed.

(** All the fields of what [analyze_complexity] returns on data that is not
    empty. *)
Lemma analyze_complexity_record (items : list Entry) :
  items <> [] ->
  let lengths := map (fun entry => List.length (entry_scripts entry)) items in
  let depths :=
    map (fun entry => list_max (map height (entry_scripts entry))) items in
  exists r,
    analyze_complexity (init items) = Ok r /\
    avg_scripts_per_ability r = INR (list_sum lengths) / INR (List.length items) /\
    py_min lengths = Ok (min_scripts r) /\
    py_max lengths = Ok (max_scripts r) /\
    avg_nesting_depth r = INR (list_sum depths) / INR (List.length items) /\
    max_nesting_depth r = list_max depths.
Proof.
  intros Hne lengths depths. unfold analyze_complexity. cbn [data init].
  rewrite complexity_lists_value. cbn [fst snd]. fold lengths depths.
  assert (Hl : List.length lengths = List.length items) by apply length_map.
  assert (Hd : List.length depths = List.length items) by apply length_map.
  assert (Hn : INR (List.length items) <> 0).
  { apply not_0_INR. destruct items; [contradiction | discriminate]. }
  rewrite Hl, Hd, !true_div_ok by exact Hn. cbn [bind].
  assert (Hlne : lengths <> []).
  { intros E. rewrite E in Hl. destruct items; [contradiction | discriminate]. }
  assert (Hdne : depths <> []).
  { intros E. rewrite E in Hd. destruct items; [contradiction | discriminate]. }
  destruct (py_min_ok lengths Hlne) as (a & Ha).
  destruct (py_max_ok lengths Hlne) as (b & Hb).
  destruct (py_max_ok depths Hdne) as (c & Hc).
  rewrite Ha, Hb, Hc. cbn [bind].
  destruct (shannon_entropy_value _ (count_all Nat.eqb lengths)) as (e & -> & _).
  cbn [bind]. eexists. split; [reflexivity|].
  cbn [avg_scripts_per_ability min_scripts max_scripts avg_nesting_depth
       max_nesting_depth].
  repeat split.
  destruct depths as [|x rest]; [contradiction|].
  injection Hc as <-. rewrite fold_max_list_max. reflexivity.
Qed.

(** X20.  The nesting depth of a node is the length of the longest chain of
    [on_hit] links below it, counted from the depth it is given, and the
    [max_nesting_depth] of the complexity analysis is the longest such chain
    below a top-level script node of the data. *)
Theorem nesting_depth_is_longest_chain (items : list Entry) :
  (forall node depth, get_max_depth node depth = (depth + height node)%nat) /\
  (items <> [] ->
   exists r,
     analyze_complexity (init items) = Ok r /\
     max_nesting_depth r = list_max (map height (top_level_scripts items))).
Proof.
  split; [exact get_max_depth_height|]. intros Hne.
  destruct (analyze_complexity_record items Hne)
    as (r & Hr & _ & _ & _ & _ & Hmax).
  exists r. split; [exact Hr|]. rewrite Hmax. unfold top_level_scripts.
  clear. induction items as [|entry items IH]; [reflexivity|].
  cbn [map flat_map]. rewrite map_app, list_max_app. cbn [list_max fold_right].
  change (fold_right Nat.max 0%nat
            (map (fun entry => list_max (map height (entry_scripts entry)))
               items))
    with (list_max
            (map (fun entry => list_max (map height (entry_scripts entry)))
               items)).
  rewrite IH. reflexivity.
Qed.

(** X21.  In the complexity analysis of data that is not empty, the
    average number of scripts per ability is the number of top-level script
    nodes over the number of records; it lies between [min_scripts] and
    [max_scripts], which are the numbers of top-level script nodes of two of
    the records. *)
Theorem scripts_per_ability (items : list Entry) :
  items <> [] ->
  exists r,
    analyze_complexity (init items) = Ok r /\
    avg_scripts_per_ability r =
      INR (List.length (top_level_scripts items)) / INR (List.length items) /\
    INR (min_scripts r) <= avg_scripts_per_ability r <= INR (max_scripts r) /\
    (exists entry, In entry items /\
                   min_scripts r = List.length (entry_scripts entry)) /\
    (exists entry, In entry items /\
                   max_scripts r = List.length (entry_scripts entry)).
Proof.
  intros Hne.
  destruct (analyze_complexity_record items Hne)
    as (r & Hr & Havg & Hmin & Hmax & _).
  exists r. split; [exact Hr|].
  set (lengths := map (fun entry => List.length (entry_scripts entry)) items) in *.
  assert (Hl : List.length lengths = List.length items) by apply length_map.
  assert (Hlne : lengths <> []).
  { intros E. rewrite E in Hl. destruct items; [contradiction | discriminate]. }
  destruct (average_between lengths _ _ Hlne Hmin Hmax) as [_ Hb].
  rewrite Hl in Hb. rewrite Havg.
  split; [unfold lengths; rewrite list_sum_lengths; reflexivity|].
  split; [exact Hb|].
  destruct (py_min_spec _ _ Hmin) as [Hin1 _].
  destruct (py_max_spec _ _ Hmax) as [Hin2 _].
  apply in_map_iff in Hin1. apply in_map_iff in Hin2.
  destruct Hin1 as (e1 & E1 & I1). destruct Hin2 as (e2 & E2 & I2).
  split; [exists e1 | exists e2]; split; auto.
Qed.

(** *** Melee totals *)

(** X22.  When some top-level script node is a [spawn_melee], the three
    tallies of the melee analysis count each such node once: the counts of
    the shapes, of the movements and of the shape and movement pairs all add
    up to the number of those nodes; the shapes and the movements listed are
    the distinct ones, in order of first occurrence. *)
Theorem melee_tallies_count_each_node_once (items : list Entry) :
  filter is_melee (top_level_scripts items) <> [] ->
  exists m,
    analyze_melee_attacks (init items) = Ok (Some m) /\
    list_sum (values (shapes m)) =
      List.length (filter is_melee (top_level_scripts items)) /\
    list_sum (values (movements m)) =
      List.length (filter is_melee (top_level_scripts items)) /\
    list_sum (values (shape_movement_combos m)) =
      List.length (filter is_melee (top_level_scripts items)) /\
    map fst (shapes m) =
      distinct value_eqb
        (map shape_of (filter is_melee (top_level_scripts items))) /\
    map fst (movements m) =
      distinct value_eqb
        (map movement_of (filter is_melee (top_level_scripts items))).
Proof.
  intros Hne.
  destruct (proj2 (analyze_melee_attacks_cases items) Hne)
    as (se & me & _ & _ & Hm).
  eexists. split; [exact Hm|].
  cbn [shapes movements shape_movement_combos].
  rewrite !count_all_sum, !length_map.
  rewrite !(keys_count_all value_eqb value_eqb_eq).
  repeat split.
Qed.

(** *** The parameter walk *)

Lemma extract_values_walk (node : ScriptNode) :
  forall acc,
    extract_values node acc =
    (fst acc ++ map amount_of (filter is_damage (tree_nodes node)),
     snd acc ++ map duration_of (filter is_apply_status (tree_nodes node))).
Proof.
  induction node as [action args on_hit IH] using ScriptNode_children_ind.
  intros [dv tv]. cbn [extract_values tree_nodes filter fst snd].
  assert (Hkids : forall acc,
            fold_left (fun acc child => extract_values child acc) on_hit acc =
            (fst acc ++
               map amount_of (filter is_damage (flat_map tree_nodes on_hit)),
             snd acc ++
               map duration_of
                 (filter is_apply_status (flat_map tree_nodes on_hit)))).
  { induction IH as [|child rest Hchild _ IHrest]; intros acc.
    - cbn [fold_left flat_map filter map]. rewrite !app_nil_r.
      destruct acc; reflexivity.
    - cbn [fold_left flat_map]. rewrite Hchild, IHrest. cbn [fst snd].
      rewrite !filter_app, !map_app, <- !app_assoc. reflexivity. }
  rewrite Hkids. cbn [fst snd].
  change (is_damage (Script action args on_hit))
    with (action_is (Script action args on_hit) "damage").
  change (is_apply_status (Script action args on_hit))
    with (action_is (Script action args on_hit) "apply_status").
  change (amount_of (Script action args on_hit))
    with (args_get "amount" (VInt 0) args).
  change (duration_of (Script action args on_hit))
    with (args_get "duration" (VInt 0) args).
  destruct (action_is (Script action args on_hit) "damage"),
    (action_is (Script action args on_hit) "apply_status");
    cbn [map]; rewrite <- ?app_assoc; reflexivity.
Qed.

(** X24.  The parameter analysis gathers its damage and duration values
    from the whole tree: [damage_values] holds the [args.amount] (0 without
    one) of every [damage] node of the data, nested under [on_hit] or not, in
    document order, and [duration_values] the [args.duration] of every
    [apply_status] node. *)
Theorem parameter_values_walk_the_tree (items : list Entry) :
  parameter_values items =
  (map amount_of (filter is_damage (all_nodes items)),
   map duration_of (filter is_apply_status (all_nodes items))).
Proof.
  unfold parameter_values, all_nodes, top_level_scripts.
  rewrite (fold_left_pointwise _ _ _
             (fun acc entry =>
                fold_left (fun acc script => extract_values script acc)
                  (flat_map script (effects (ability entry))) acc)).
  2:{ intros acc entry.
      apply (fold_left_flat_map _ _ _
               (fun acc script => extract_values script acc) script). }
  rewrite (fold_left_flat_map _ _ _
             (fun acc script => extract_values script acc)
             (fun entry => flat_map script (effects (ability entry)))).
  generalize (flat_map (fun entry => flat_map script (effects (ability entry)))
                items).
  intros scripts.
  enough (forall acc,
            fold_left (fun acc script => extract_values script acc) scripts acc =
            (fst acc ++
               map amount_of (filter is_damage (flat_map tree_nodes scripts)),
             snd acc ++
               map duration_of
                 (filter is_apply_status (flat_map tree_nodes scripts))))
    as H by (rewrite H; reflexivity).
  induction scripts as [|node scripts IH]; intros acc.
  - cbn [fold_left flat_map filter map]. rewrite !app_nil_r.
    destruct acc; reflexivity.
  - cbn [fold_left flat_map]. rewrite extract_values_walk, IH. cbn [fst snd].
    rewrite !filter_app, !map_app, <- !app_assoc. reflexivity.
Qed.

End AnalysisLaws.

(** ** The laws at sample inputs *)

Module LawWitnesses.

Import Py Json FixTrainingData AnalyzeTrainingDiversity Spans Gate Stats Noise
  FixMain Walk Parameters Samples MoreSamples.

(** X1 at the text [{{a], in which no brace is closed. *)
Lemma one_sided_braces_give_nothing_witness :
  count_char rbrace (chars "{{a") = 0%nat /\
  candidate_spans (chars "{{a") = [] /\
  extract_json_objects sample_loads (chars "{{a") = Ok [].
Proof.
  split; [reflexivity|].
  apply (ExtractLaws.one_sided_braces_give_nothing sample_loads (chars "{{a")).
  left. reflexivity.
Defined.

(** X2 at [{a}], the noise [ , ] and [{b{}}]. *)
Lemma noise_between_objects_is_ignored_witness :
  candidate_spans (chars "{a}" ++ chars " , " ++ chars "{b{}}") =
    candidate_spans (chars "{a}" ++ chars "{b{}}") /\
  extract_json_objects sample_loads (chars "{a}" ++ chars " , " ++ chars "{b{}}") =
    extract_json_objects sample_loads (chars "{a}" ++ chars "{b{}}").
Proof.
  apply (ExtractLaws.noise_between_objects_is_ignored sample_loads
           (chars "{a}") (chars " , ") (chars "{b{}}")).
  - assert (N : nesting (chars "{a}") = 0%Z) by reflexivity. rewrite N. lia.
  - reflexivity.
Defined.

(** X3 at [{a}x] followed by [{b{}}]. *)
Lemma extract_of_concatenation_witness :
  nesting (chars "{a}x") = 0%Z /\
  extract_json_objects sample_loads (chars "{a}x" ++ chars "{b{}}") =
  (first <- extract_json_objects sample_loads (chars "{a}x") ;;
   second <- extract_json_objects sample_loads (chars "{b{}}") ;;
   Ok (first ++ second)).
Proof.
  split; [reflexivity|].
  apply (ExtractLaws.extract_of_concatenation sample_loads
           (chars "{a}x") (chars "{b{}}")).
  reflexivity.
Defined.


(** X5 at [{a}] followed by a stray closing brace and [{b{}}]. *)
Lemma stray_closing_brace_swallows_next_opening_witness :
  candidate_spans (chars "{a}" ++ rbrace :: lbrace :: chars "b{}}") =
    candidate_spans (chars "{a}" ++ chars "b{}}") /\
  extract_json_objects sample_loads
    (chars "{a}" ++ rbrace :: lbrace :: chars "b{}}") =
  extract_json_objects sample_loads (chars "{a}" ++ chars "b{}}").
Proof.
  apply (ExtractLaws.stray_closing_brace_swallows_next_opening sample_loads
           (chars "{a}") (chars "b{}}")).
  reflexivity.
Defined.

(** X8 at the object extracted from [{a}], which has no description. *)
Lemma extracted_object_rejection_reasons_witness :
  extract_json_objects sample_loads (chars "{a}") =
    Ok [[("name", JStr "a"); ("ability", JObj [])]]%string /\
  validate_ability [("name", JStr "a"); ("ability", JObj [])]%string =
    Ok (false, "Missing field: description"%string) /\
  In "Missing field: description"%string
     [ "Missing field: description"; "Missing field: color";
       "Invalid primitives (must have exactly 2)"; "Missing effects";
       "Missing cooldown" ]%string.
Proof.
  assert (Hrun : extract_json_objects sample_loads (chars "{a}") =
                 Ok [[("name", JStr "a"); ("ability", JObj [])]]%string)
    by reflexivity.
  assert (Hv : validate_ability [("name", JStr "a"); ("ability", JObj [])]%string
               = Ok (false, "Missing field: description"%string))
    by reflexivity.
  split; [exact Hrun|]. split; [exact Hv|].
  exact (ValidateLaws.extracted_object_rejection_reasons sample_loads
           (chars "{a}") _ _ _ Hrun (or_introl eq_refl) Hv).
Defined.

(** X9 at the content [x{f}], whose one object passes the strict gate. *)
Lemma main_returns_positive_count_witness :
  returned (main loads_two (list string) sorted_strings tuple_eqb (chars "x{f}"))
    = Ok 1%nat /\
  exists objects,
    extract_json_objects loads_two (chars "x{f}") = Ok objects /\
    (0 < 1)%nat /\
    1%nat = List.length (filter strict_gate objects) /\
    output_file
      (main loads_two (list string) sorted_strings tuple_eqb (chars "x{f}")) =
    Some (filter strict_gate objects).
Proof.
  assert (H : returned (main loads_two (list string) sorted_strings tuple_eqb
                          (chars "x{f}")) = Ok 1%nat).
  { rewrite ValidateLaws.main_value.
    assert (E : extract_json_objects loads_two (chars "x{f}") = Ok [fireburst])
      by reflexivity.
    rewrite E. cbv zeta.
    change (existsb raises_in_validator [fireburst]) with false.
    change (filter strict_gate [fireburst]) with [fireburst].
    cbn [returned].
    change (summary_loop (list string) sorted_strings tuple_eqb [fireburst] [])
      with (Ok [(["fire"; "fire"]%string, 1%nat)]).
    cbn [bind Datatypes.length].
    rewrite EntropyFacts.true_div_ok; [reflexivity|].
    change (INR 1) with 1%R. apply R1_neq_R0. }
  split; [exact H|].
  exact (ValidateLaws.main_returns_positive_count loads_two (list string)
           sorted_strings tuple_eqb (chars "x{f}") 1%nat H).
Defined.

(** X10 at the content [{a}], whose one object has no description. *)
Lemma main_without_valid_object_witness :
  main sample_loads (list string) sorted_strings tuple_eqb (chars "{a}") =
  mkOutcome (Some []) (Raise ZeroDivisionError).
Proof.
  apply (ValidateLaws.main_without_valid_object sample_loads (list string)
           sorted_strings tuple_eqb (chars "{a}")
           [[("name", JStr "a"); ("ability", JObj [])]]%string);
    reflexivity.
Defined.

(** X11 at the content [{f}{n}], whose second object has a null
    [ability]. *)
Lemma main_validator_raises_witness :
  main loads_two (list string) sorted_strings tuple_eqb (chars "{f}{n}") =
  mkOutcome None (Raise TypeError).
Proof.
  apply (ValidateLaws.main_validator_raises loads_two (list string)
           sorted_strings tuple_eqb (chars "{f}{n}") [fireburst; null_ability]);
    reflexivity.
Defined.

Local Open Scope R_scope.

(** X15 at a data set of one record. *)
Lemma evenness_is_zero_without_variety_witness :
  exists r,
    analyze_element_combinations (init two_swings) = Ok r /\
    entropy r = 0 /\ evenness_percent r = 0.
Proof.
  destruct (AnalysisLaws.evenness_is_zero_without_variety two_swings)
    as (r & Hr & _ & H).
  destruct (AnalysisFacts.analyze_element_combinations_value two_swings)
    as (r' & Hr' & Hu & _).
  rewrite Hr' in Hr. injection Hr as <-.
  exists r'. split; [exact Hr'|]. apply H. rewrite Hu. vm_compute. lia.
Defined.

(** X16 at two records and the same with the primitives swapped. *)
Lemma primitive_order_is_irrelevant_witness :
  element_combos two_pairs = element_combos two_pairs_swapped /\
  analyze_element_combinations (init two_pairs) =
  analyze_element_combinations (init two_pairs_swapped).
Proof.
  apply (AnalysisLaws.primitive_order_is_irrelevant two_pairs two_pairs_swapped).
  constructor; [apply perm_swap|].
  constructor; [apply perm_swap | constructor].
Defined.

(** X17 at a record with a [damage] node and a [spawn_melee] node under
    it: one node is counted. *)
Lemma action_distribution_is_top_level_witness :
  exists r,
    analyze_actions (init nested_melee) = Ok r /\
    action_distribution r = [("damage"%string, 1%nat)] /\
    list_sum (values (action_distribution r)) = 1%nat.
Proof.
  destruct (AnalysisLaws.action_distribution_is_top_level nested_melee)
    as (r & Hr & Hd & Hs & _); [discriminate|].
  exists r. split; [exact Hr|]. split; [exact Hd | exact Hs].
Defined.

(** X18 at a data set of one record. *)
Lemma sequence_diversity_full_iff_distinct_witness :
  exists r,
    analyze_actions (init two_swings) = Ok r /\
    sequence_diversity_percent r = 100.
Proof.
  destruct (AnalysisLaws.sequence_diversity_full_iff_distinct two_swings)
    as (r & Hr & _ & H); [discriminate|].
  exists r. split; [exact Hr|]. apply H.
  constructor; [intros []|constructor].
Defined.

(** X21 at a record with two top-level script nodes. *)
Lemma scripts_per_ability_witness :
  exists r,
    analyze_complexity (init two_swings) = Ok r /\
    avg_scripts_per_ability r = INR 2 / INR 1.
Proof.
  destruct (AnalysisLaws.scripts_per_ability two_swings)
    as (r & Hr & Havg & _); [discriminate|].
  exists r. split; [exact Hr | exact Havg].
Defined.

(** X22 at a record with two top-level [spawn_melee] nodes. *)
Lemma melee_tallies_count_each_node_once_witness :
  exists m,
    analyze_melee_attacks (init two_swings) = Ok (Some m) /\
    list_sum (values (shapes m)) = 2%nat /\
    map fst (shapes m) = [VStr "arc"; VStr "unknown"].
Proof.
  destruct (AnalysisLaws.melee_tallies_count_each_node_once two_swings)
    as (m & Hm & Hs & _ & _ & Hk & _); [discriminate|].
  exists m. split; [exact Hm|]. split; [exact Hs | exact Hk].
Defined.

End LawWitnesses.
